(** * Tsunami Sentinel: feed normalizer and alert de-duplication

    A shallow embedding of the logic of the dashboard:

    - [services/tsunamiService.ts]: [mapUsgsFeatureToEarthquakeEvent] and the
      map / filter / sort pipeline of [fetchTsunamiData];
    - [App.tsx]: the alert effect of [TsunamiDashboard] (the [useEffect] that
      walks the event list, renders the e-mail template and records the
      processed ids), together with [formatDateTime];
    - [App.tsx], further: the figures of the dashboard ([useMemo]), the
      markers of the map, the handlers of the settings card, the loading of
      the feed ([loadData], [handleRefresh]) and the texts of the cards.

    JavaScript numbers are IEEE 754 binary64 values ([spec_float] with
    precision 53 and maximal exponent 1024), strings are [string], arrays are
    lists, a [Set] is the list of its elements in insertion order, a [Date]
    holds a time value in milliseconds or is invalid, and the clock that
    [new Date()] reads is an explicit sequence of readings. *)

From Stdlib Require Import List String Ascii ZArith Lia Bool Arith.
From Stdlib Require Import SpecFloat DecimalString.
From Stdlib Require DecimalPos DecimalN.
From Stdlib Require Import Sorted Permutation.
Import ListNotations.

Local Open Scope string_scope.
Local Open Scope Z_scope.

(** ** JavaScript numbers *)

Module JsNumber.

Definition number : Type := spec_float.

Definition prec : Z := 53.
Definition emax : Z := 1024.

(** The number a decimal literal [n / d] denotes (correctly rounded). *)
Definition of_Z (n : Z) : number := binary_normalize prec emax n 0 false.

Definition of_ratio (n d : Z) : number :=
  SFdiv prec emax (of_Z n) (of_Z d).

Definition NaN : number := S754_nan.

(** [a >= b] and [a < b] of the language: false as soon as one side is NaN. *)
Definition geb (a b : number) : bool := SFleb b a.
Definition ltb (a b : number) : bool := SFltb a b.

(** Digits of a non-negative integer. *)
Definition digits (n : Z) : string :=
  NilZero.string_of_uint (N.to_uint (Z.to_N n)).

(** [n] such that [n / 10 - m * 2^e] is as close to zero as possible, the
    larger one on a tie. *)
Definition round_tenths (m : positive) (e : Z) : Z :=
  match e with
  | Zneg k => (20 * Zpos m + 2 ^ Zpos k) / 2 ^ (Zpos k + 1)
  | _ => 10 * Zpos m * 2 ^ e
  end.

(** The decimal point is placed before the last digit; a lone digit gets a
    leading zero. *)
Definition fixed1 (n : Z) : string :=
  digits (n / 10) ++ "." ++ digits (n mod 10).

(** Whether [m * 2^e >= 10^21]. *)
Definition at_least_1e21 (m : positive) (e : Z) : bool :=
  match e with
  | Zneg k => 10 ^ 21 * 2 ^ Zpos k <=? Zpos m
  | _ => 10 ^ 21 <=? Zpos m * 2 ^ e
  end.

(** *** [Number::toString] from [1e21] on

    The digits are the shortest decimal [s * 10^(n - k)] (with [k] digits
    in [s]) that reads back as the same number; the result is printed in
    exponent form, [n > 21] here. *)

Definition reads_back (x : number) (v : Z) : bool :=
  SFeqb (binary_normalize prec emax v 0 false) x.

Definition decimal_length (v : Z) : Z := Z.of_nat (String.length (digits v)).

(** The [k]-digit candidates around [v], which has [d] digits: the pair
    [(s, n)] closest to [v] that reads back as [x], if any. *)
Definition shortest_with (x : number) (v d k : Z) : option (Z * Z) :=
  let p := 10 ^ (d - k) in
  let lo := v / p in
  let hi := lo + 1 in
  let norm s := if s =? 10 ^ k then (10 ^ (k - 1), d + 1) else (s, d) in
  match reads_back x (lo * p), reads_back x (hi * p) with
  | true, true =>
      let dl := v - lo * p in
      let dh := hi * p - v in
      if dl <? dh then Some (norm lo)
      else if dh <? dl then Some (norm hi)
      else Some (norm (if Z.even lo then lo else hi))
  | true, false => Some (norm lo)
  | false, true => Some (norm hi)
  | false, false => None
  end.

Fixpoint shortest_from (x : number) (v d : Z) (k : Z) (fuel : nat)
  : Z * Z :=
  match fuel with
  | O => (v, d)
  | S fuel' =>
      match shortest_with x v d k with
      | Some r => r
      | None => shortest_from x v d (k + 1) fuel'
      end
  end.

Definition exponent_form (s n : Z) : string :=
  let ds := digits s in
  match ds with
  | String c EmptyString => String c ("e+" ++ digits (n - 1))
  | String c rest => String c ("." ++ rest ++ "e+" ++ digits (n - 1))
  | EmptyString => EmptyString
  end.

(** [Number::toString] of the positive integer [m * 2^e >= 10^21]. *)
Definition toString_large (m : positive) (e : Z) : string :=
  let x := S754_finite false m e in
  let v := Zpos m * 2 ^ e in
  let d := decimal_length v in
  let '(s, n) := shortest_from x v d 1 (Z.to_nat d) in
  exponent_form s n.

(** *** [Number.prototype.toFixed] with one fraction digit *)

Definition toFixed1 (x : number) : string :=
  match x with
  | S754_nan => "NaN"
  | S754_infinity false => "Infinity"
  | S754_infinity true => "-Infinity"
  | S754_zero _ => "0.0"
  | S754_finite s m e =>
      (if s then "-" else "") ++
      (if at_least_1e21 m e then toString_large m e
       else fixed1 (round_tenths m e))
  end.

End JsNumber.

Import JsNumber.

(** ** JavaScript strings *)

Module JsString.

(** [GetSubstitution] for a string pattern (no captures): in the replacement
    text, [$$] stands for a dollar sign, [$&] for the matched text, [$`] for
    the text before the match and [$'] for the text after it. *)
Fixpoint GetSubstitution (matched before after template : string) : string :=
  match template with
  | EmptyString => EmptyString
  | String a tl =>
      if Ascii.eqb a "$" then
        match tl with
        | String c rest =>
            if Ascii.eqb c "$" then
              String "$" (GetSubstitution matched before after rest)
            else if Ascii.eqb c "&" then
              matched ++ GetSubstitution matched before after rest
            else if Ascii.eqb c "`" then
              before ++ GetSubstitution matched before after rest
            else if Ascii.eqb c "'" then
              after ++ GetSubstitution matched before after rest
            else String a (GetSubstitution matched before after tl)
        | EmptyString => String a EmptyString
        end
      else String a (GetSubstitution matched before after tl)
  end.

(** The text before position [i] and the text from position [i] on. *)
Definition upto (i : nat) (s : string) : string := substring 0 i s.
Definition from (i : nat) (s : string) : string :=
  substring i (String.length s - i) s.

(** [s.replace(searchValue, replaceValue)] with two strings: only the first
    occurrence is replaced. *)
Definition replace (s searchValue replaceValue : string) : string :=
  match index 0 searchValue s with
  | None => s
  | Some pos =>
      let before := upto pos s in
      let after := from (pos + String.length searchValue) s in
      before ++ GetSubstitution searchValue before after replaceValue
             ++ after
  end.

(** Whether a dollar sign occurs in a string. *)
Fixpoint has_dollar (s : string) : bool :=
  match s with
  | EmptyString => false
  | String a tl => Ascii.eqb a "$" || has_dollar tl
  end.

End JsString.

(** ** Dates *)

Module JsDate.

(** A time value: milliseconds since the epoch, UTC. *)
Definition Time : Type := Z.

(** A [Date] object holds a time value or [NaN]; with [NaN] ([None]) it is
    an Invalid Date. *)
Definition Date : Type := option Time.

(** [TimeClip]: no date is further than 8.64e15 milliseconds from the
    epoch. *)
Definition TimeClip (t : Z) : Date :=
  if Z.abs t <=? 8640000000000000 then Some t else None.

(** [new Date(value)] for a number that is integral. *)
Definition of_number (value : Z) : Date := TimeClip value.

(** [d.getTime()]; [None] is [NaN]. *)
Definition getTime (d : Date) : option Z := d.

Definition msPerDay : Z := 86400000.

(** Year, month (1 to 12) and day of the month of a day number. *)
Definition civil_from_days (day : Z) : Z * Z * Z :=
  let z := day + 719468 in
  let era := z / 146097 in
  let doe := z - era * 146097 in
  let yoe := (doe - doe / 1460 + doe / 36524 - doe / 146096) / 365 in
  let doy := doe - (365 * yoe + yoe / 4 - yoe / 100) in
  let mp := (5 * doy + 2) / 153 in
  let d := doy - (153 * mp + 2) / 5 + 1 in
  let m := if mp <? 10 then mp + 3 else mp - 9 in
  let y := yoe + era * 400 in
  (if m <=? 2 then y + 1 else y, m, d).

(** [n] printed with at least [w] digits. *)
Fixpoint zeros (n : nat) : string :=
  match n with
  | O => EmptyString
  | S n' => String "0" (zeros n')
  end.

Definition pad (w : nat) (n : Z) : string :=
  let ds := digits n in
  zeros (w - String.length ds) ++ ds.

Definition hours (t : Time) : Z := (t mod msPerDay) / 3600000.
Definition minutes (t : Time) : Z := (t mod 3600000) / 60000.
Definition seconds (t : Time) : Z := (t mod 60000) / 1000.
Definition millis (t : Time) : Z := t mod 1000.

Definition year_string (y : Z) : string :=
  if (0 <=? y) && (y <=? 9999) then pad 4 y
  else (if y <? 0 then "-" else "+") ++ pad 6 (Z.abs y).

(** [d.toISOString()] for a date with the time value [t]. *)
Definition toISOString (t : Time) : string :=
  let '(y, m, d) := civil_from_days (t / msPerDay) in
  year_string y ++ "-" ++ pad 2 m ++ "-" ++ pad 2 d ++ "T" ++
  pad 2 (hours t) ++ ":" ++ pad 2 (minutes t) ++ ":" ++
  pad 2 (seconds t) ++ "." ++ pad 3 (millis t) ++ "Z".

(** The clock: the time values of the dates that successive [new Date()]
    will return. *)
Definition Clock : Type := nat -> Time.

Definition now (c : Clock) : Time * Clock := (c O, fun n => c (S n)).

End JsDate.

(** ** The host

    [toLocaleDateString] and [toLocaleTimeString] print a time value in the
    time zone and with the locale data of the machine the page runs on. *)

Record Host : Type := {
  toLocaleDateString_enGB : JsDate.Time -> string;
  toLocaleTimeString_enUS_h24 : JsDate.Time -> string
}.

(** A host whose time zone is UTC, printing [dd/mm/yyyy] and [hh:mm:ss]
    (years from 1 on). *)
Definition utc_host : Host := {|
  toLocaleDateString_enGB t :=
    let '(y, m, d) := JsDate.civil_from_days (t / JsDate.msPerDay) in
    JsDate.pad 2 d ++ "/" ++ JsDate.pad 2 m ++ "/" ++ digits y;
  toLocaleTimeString_enUS_h24 t :=
    JsDate.pad 2 (JsDate.hours t) ++ ":" ++ JsDate.pad 2 (JsDate.minutes t)
      ++ ":" ++ JsDate.pad 2 (JsDate.seconds t)
|}.

(** ** [types.ts] *)

Inductive AlertLevel : Type := none | info | advisory | watch | warning.

Module EarthquakeEvent.
Record t : Type := {
  id : string;
  title : string;
  updated : JsDate.Date;
  link : string;
  location : string;
  magnitude : number;
  depth : number;
  lat : number;
  lon : number;
  isTsunamiWarning : bool;
  rawSummary : string;
  alertLevel : AlertLevel
}.
End EarthquakeEvent.

Module AlertSettings.
Record t : Type := {
  minMagnitude : number;
  notificationsEnabled : bool;
  recipients : list string;
  emailTemplate : string
}.
End AlertSettings.

Module GeneratedAlert.
Record t : Type := {
  id : string;
  timestamp : string;
  event : EarthquakeEvent.t;
  body : string
}.
End GeneratedAlert.

(** ** [services/tsunamiService.ts] *)

Module UsgsFeature.
(** [mag] is [None] for [null] and for a missing field; [updated] is the
    feed's integral count of milliseconds, of any size. *)
Record properties_t : Type := {
  mag : option number;
  place : string;
  time : Z;
  updated : Z;
  url : string;
  title : string;
  tsunami : Z
}.
Record geometry_t : Type := {
  coordinates : number * number * number
}.
Record t : Type := {
  id : string;
  properties : properties_t;
  geometry : geometry_t
}.
End UsgsFeature.

(** What the sort makes of the number a comparator returns: [NaN] ([None])
    counts as [+0]. *)
Definition SortCompare {A : Type} (comparefn : A -> A -> option Z) (x y : A)
  : Z :=
  match comparefn x y with
  | Some v => v
  | None => 0
  end.

(** [arr.sort(comparefn)], with [compare] for [SortCompare comparefn]: the
    sort is stable, and with a comparator that orders the elements
    consistently its result is the one of inserting each element before the
    first element it does not come after. A comparator that returns [NaN] for
    some pairs need not be consistent; the order is then the engine's choice,
    and the insertion below gives the order that V8 leaves for the feed
    [Sample.undated_feed]. *)
Section Sort.
Context {A : Type} (compare : A -> A -> Z).

Fixpoint sort_insert (x : A) (l : list A) : list A :=
  match l with
  | [] => [x]
  | y :: l' => if compare x y <=? 0 then x :: l else y :: sort_insert x l'
  end.

Fixpoint sort (l : list A) : list A :=
  match l with
  | [] => []
  | x :: l' => sort_insert x (sort l')
  end.
End Sort.

(** [arr.map(f).filter(x => x !== null)]. *)
Fixpoint map_filter_non_null {A B : Type} (f : A -> option B) (l : list A)
  : list B :=
  match l with
  | [] => []
  | x :: l' =>
      match f x with
      | Some y => y :: map_filter_non_null f l'
      | None => map_filter_non_null f l'
      end
  end.

Definition mapUsgsFeatureToEarthquakeEvent (feature : UsgsFeature.t)
  : option EarthquakeEvent.t :=
  let props := UsgsFeature.properties feature in
  match UsgsFeature.mag props with
  | None => None
  | Some mag =>
      let '(lon, lat, depth) :=
        UsgsFeature.coordinates (UsgsFeature.geometry feature) in
      let isTsunamiWarning := UsgsFeature.tsunami props =? 1 in
      let alertLevel :=
        if isTsunamiWarning then warning
        else if geb mag (of_ratio 75 10) then advisory
        else if geb mag (of_ratio 65 10) then info
        else none in
      Some {|
        EarthquakeEvent.id := UsgsFeature.id feature;
        EarthquakeEvent.title := UsgsFeature.title props;
        EarthquakeEvent.updated :=
          JsDate.of_number (UsgsFeature.updated props);
        EarthquakeEvent.link := UsgsFeature.url props;
        EarthquakeEvent.location := UsgsFeature.place props;
        EarthquakeEvent.magnitude := mag;
        EarthquakeEvent.depth := depth;
        EarthquakeEvent.lat := lat;
        EarthquakeEvent.lon := lon;
        EarthquakeEvent.isTsunamiWarning := isTsunamiWarning;
        EarthquakeEvent.rawSummary := UsgsFeature.title props;
        EarthquakeEvent.alertLevel := alertLevel
      |}
  end.

(** The comparator of [fetchTsunamiData]: most recent first. The difference
    is [NaN] ([None]) when one of the dates is invalid; that of two time
    values is written in [Z], the sort reading no more than its sign, which
    rounding to a binary64 number keeps. *)
Definition by_updated_desc (a b : EarthquakeEvent.t) : option Z :=
  match JsDate.getTime (EarthquakeEvent.updated b),
        JsDate.getTime (EarthquakeEvent.updated a) with
  | Some tb, Some ta => Some (tb - ta)
  | _, _ => None
  end.

(** What [fetchTsunamiData] makes of the [features] array of the response. *)
Definition normalize (features : list UsgsFeature.t)
  : list EarthquakeEvent.t :=
  sort (SortCompare by_updated_desc)
    (map_filter_non_null mapUsgsFeatureToEarthquakeEvent features).

(** ** [App.tsx]: the alert effect of [TsunamiDashboard] *)

(** A [Set] of strings: its elements in insertion order. *)
Module StringSet.
Definition t : Type := list string.

Definition has (s : t) (x : string) : bool :=
  existsb (String.eqb x) s.

Definition add (s : t) (x : string) : t :=
  if has s x then s else (s ++ [x])%list.

(** [new Set(arr)]. *)
Definition of_array (arr : list string) : t := fold_left add arr [].

(** [Array.from(s)]. *)
Definition to_array (s : t) : list string := s.
End StringSet.

(** The two values the effect keeps in local storage. *)
Record Store : Type := {
  processedEvents : list string;
  generatedAlerts : list GeneratedAlert.t
}.

(** Modelled from the spec: [hooks/useLocalStorage] is not part of the
    sources at hand; its setters are those of a persisted key-value store,
    which replace the value under their key, a function argument being
    applied to the current value. *)
Definition setProcessedEvents (v : list string) (st : Store) : Store :=
  {| processedEvents := v; generatedAlerts := generatedAlerts st |}.

(** Modelled from the spec: the setter of the alert log of the same hook,
    called with a function of the previous value. *)
Definition setGeneratedAlerts
  (f : list GeneratedAlert.t -> list GeneratedAlert.t) (st : Store) : Store :=
  {| processedEvents := processedEvents st;
     generatedAlerts := f (generatedAlerts st) |}.

(** [arr.slice(0, n)]. *)
Definition slice0 {A : Type} (n : nat) (arr : list A) : list A := firstn n arr.

Section AlertEffect.

Variable host : Host.

(** [date.toLocaleDateString('en-GB')] and
    [date.toLocaleTimeString('en-US', { hour12: false })]: both print an
    invalid date as [Invalid Date]. *)
Definition toLocaleDateString (date : JsDate.Date) : string :=
  match date with
  | Some t => toLocaleDateString_enGB host t
  | None => "Invalid Date"
  end.

Definition toLocaleTimeString (date : JsDate.Date) : string :=
  match date with
  | Some t => toLocaleTimeString_enUS_h24 host t
  | None => "Invalid Date"
  end.

Definition formatDateTime (date : JsDate.Date) : string :=
  toLocaleDateString date ++ " " ++ toLocaleTimeString date.

(** The body of an alert: the chain of five [replace] calls. *)
Definition render (template : string) (event : EarthquakeEvent.t) : string :=
  let s1 := JsString.replace template "{magnitude}"
              (toFixed1 (EarthquakeEvent.magnitude event)) in
  let s2 := JsString.replace s1 "{location}"
              (EarthquakeEvent.location event) in
  let s3 := JsString.replace s2 "{depth}"
              (toFixed1 (EarthquakeEvent.depth event) ++ " km") in
  let s4 := JsString.replace s3 "{time}"
              (formatDateTime (EarthquakeEvent.updated event)) in
  JsString.replace s4 "{link}" (EarthquakeEvent.link event).

(** The variables of the [forEach] loop, and the clock. *)
Record Loop : Type := {
  newProcessed : StringSet.t;
  newAlerts : list GeneratedAlert.t;
  clock : JsDate.Clock
}.

(** One turn of [events.forEach]. *)
Definition visit (alertSettings : AlertSettings.t) (st : Loop)
  (event : EarthquakeEvent.t) : Loop :=
  if StringSet.has (newProcessed st) (EarthquakeEvent.id event) then st
  else if geb (EarthquakeEvent.magnitude event)
              (AlertSettings.minMagnitude alertSettings) then
    let body := render (AlertSettings.emailTemplate alertSettings) event in
    let '(t1, c1) := JsDate.now (clock st) in
    let '(t2, c2) := JsDate.now c1 in
    let newAlert := {|
      GeneratedAlert.id :=
        EarthquakeEvent.id event ++ "-" ++ JsDate.toISOString t1;
      GeneratedAlert.timestamp := JsDate.toISOString t2;
      GeneratedAlert.event := event;
      GeneratedAlert.body := body
    |} in
    {| newProcessed := StringSet.add (newProcessed st)
                         (EarthquakeEvent.id event);
       newAlerts := (newAlerts st ++ [newAlert])%list;
       clock := c2 |}
  else st.

Definition forEach (alertSettings : AlertSettings.t)
  (events : list EarthquakeEvent.t) (st : Loop) : Loop :=
  fold_left (visit alertSettings) events st.

(** The guard at the head of the effect. *)
Definition idle (alertSettings : AlertSettings.t)
  (events : list EarthquakeEvent.t) : bool :=
  negb (AlertSettings.notificationsEnabled alertSettings)
  || (List.length (AlertSettings.recipients alertSettings) =? 0)%nat
  || (List.length events =? 0)%nat.

(** The loop of the effect, from the stored processed ids. *)
Definition scan (events : list EarthquakeEvent.t)
  (alertSettings : AlertSettings.t) (processed : list string)
  (c : JsDate.Clock) : Loop :=
  forEach alertSettings events
    {| newProcessed := StringSet.of_array processed;
       newAlerts := [];
       clock := c |}.

(** [evaluate]: the new alerts and the processed ids the effect leaves. *)
Definition evaluate (events : list EarthquakeEvent.t)
  (alertSettings : AlertSettings.t) (processed : list string)
  (c : JsDate.Clock) : list GeneratedAlert.t * list string :=
  if idle alertSettings events then ([], processed)
  else
    let r := scan events alertSettings processed c in
    if (0 <? List.length (newAlerts r))%nat
    then (newAlerts r, StringSet.to_array (newProcessed r))
    else ([], processed).

(** The effect on the store. *)
Definition alertEffect (events : list EarthquakeEvent.t)
  (alertSettings : AlertSettings.t) (c : JsDate.Clock) (st : Store)
  : Store :=
  if idle alertSettings events then st
  else
    let r := scan events alertSettings (processedEvents st) c in
    if (0 <? List.length (newAlerts r))%nat
    then
      setProcessedEvents (StringSet.to_array (newProcessed r))
        (setGeneratedAlerts
           (fun prev => slice0 50 (newAlerts r ++ prev)%list) st)
    else st.

End AlertEffect.

(** The effect run once per call, in order; each call comes with the event
    list, the settings and the clock of its time. *)
Definition Call : Type :=
  (list EarthquakeEvent.t * AlertSettings.t * JsDate.Clock)%type.

Fixpoint run_effects (host : Host) (calls : list Call) (st : Store) : Store :=
  match calls with
  | [] => st
  | (events, alertSettings, c) :: rest =>
      run_effects host rest (alertEffect host events alertSettings c st)
  end.

(** The rendering in the words of the specification: the first occurrence of
    each placeholder gives way to the text itself. *)
Definition substitute_once (s placeholder text : string) : string :=
  match index 0 placeholder s with
  | None => s
  | Some pos =>
      JsString.upto pos s ++ text
        ++ JsString.from (pos + String.length placeholder) s
  end.

Definition render_spec (host : Host) (template : string)
  (event : EarthquakeEvent.t) : string :=
  let s1 := substitute_once template "{magnitude}"
              (toFixed1 (EarthquakeEvent.magnitude event)) in
  let s2 := substitute_once s1 "{location}"
              (EarthquakeEvent.location event) in
  let s3 := substitute_once s2 "{depth}"
              (toFixed1 (EarthquakeEvent.depth event) ++ " km") in
  let s4 := substitute_once s3 "{time}"
              (formatDateTime host (EarthquakeEvent.updated event)) in
  substitute_once s4 "{link}" (EarthquakeEvent.link event).

(** Whether a feed record carries a magnitude. *)
Definition has_magnitude (feature : UsgsFeature.t) : bool :=
  match UsgsFeature.mag (UsgsFeature.properties feature) with
  | Some _ => true
  | None => false
  end.

(** The events of a list that were last updated at time [t]. *)
Definition updated_at (t : Z) (l : list EarthquakeEvent.t)
  : list EarthquakeEvent.t :=
  filter (fun e =>
            match JsDate.getTime (EarthquakeEvent.updated e) with
            | Some u => u =? t
            | None => false
            end) l.

(** Most recent first: [a.updated.getTime() >= b.updated.getTime()], which
    does not hold of [NaN]. *)
Definition newer_first (a b : EarthquakeEvent.t) : Prop :=
  match JsDate.getTime (EarthquakeEvent.updated a),
        JsDate.getTime (EarthquakeEvent.updated b) with
  | Some ta, Some tb => tb <= ta
  | _, _ => False
  end.

(** A time value in the range of dates. *)
Definition in_range (t : Z) : Prop :=
  - 8640000000000000 <= t <= 8640000000000000.

(** An event whose [updated] is a valid date. *)
Definition timed (e : EarthquakeEvent.t) : Prop :=
  JsDate.getTime (EarthquakeEvent.updated e) <> None.

(** A feed whose records with a magnitude all carry an [updated] value that
    a date can hold. *)
Definition dated (features : list UsgsFeature.t) : Prop :=
  forall feature,
    In feature features ->
    has_magnitude feature = true ->
    in_range (UsgsFeature.updated (UsgsFeature.properties feature)).

(** The ids of the events a list of alerts is about. *)
Definition event_ids (alerts : list GeneratedAlert.t) : list string :=
  map (fun a => EarthquakeEvent.id (GeneratedAlert.event a)) alerts.

(** An alert the loop generates for one of [events] under the settings: about
    an event that meets the threshold, with the rendered template as body. *)
Definition generated_from (host : Host) (alertSettings : AlertSettings.t)
  (events : list EarthquakeEvent.t) (a : GeneratedAlert.t) : Prop :=
  In (GeneratedAlert.event a) events
  /\ geb (EarthquakeEvent.magnitude (GeneratedAlert.event a))
         (AlertSettings.minMagnitude alertSettings) = true
  /\ GeneratedAlert.body a
     = render host (AlertSettings.emailTemplate alertSettings)
         (GeneratedAlert.event a).

(** The [i]-th alert of a run carries the readings [2 i] and [2 i + 1] of the
    run's clock. *)
Definition stamped (c : JsDate.Clock) (alerts : list GeneratedAlert.t)
  : Prop :=
  forall i a,
    nth_error alerts i = Some a ->
    GeneratedAlert.id a
    = EarthquakeEvent.id (GeneratedAlert.event a) ++ "-"
        ++ JsDate.toISOString (c (2 * i)%nat)
    /\ GeneratedAlert.timestamp a = JsDate.toISOString (c (2 * i + 1)%nat).

(** The settings with another threshold, as the slider of the settings card
    leaves them: [{ ...s, minMagnitude: m }]. *)
Definition with_minMagnitude (s : AlertSettings.t) (m : number)
  : AlertSettings.t := {|
  AlertSettings.minMagnitude := m;
  AlertSettings.notificationsEnabled := AlertSettings.notificationsEnabled s;
  AlertSettings.recipients := AlertSettings.recipients s;
  AlertSettings.emailTemplate := AlertSettings.emailTemplate s
|}.

(** ** Sample data *)

Module Sample.

(** A record of the feed with the tsunami flag and magnitude 9.0. *)
Definition flagged_9 : UsgsFeature.t := {|
  UsgsFeature.id := "us9";
  UsgsFeature.properties := {|
    UsgsFeature.mag := Some (of_Z 9);
    UsgsFeature.place := "Sumatra";
    UsgsFeature.time := 900;
    UsgsFeature.updated := 950;
    UsgsFeature.url := "https://earthquake.usgs.gov/earthquakes/eventpage/us9";
    UsgsFeature.title := "M 9.0 - Sumatra";
    UsgsFeature.tsunami := 1 |};
  UsgsFeature.geometry := {|
    UsgsFeature.coordinates := (of_ratio 953 10, of_ratio 33 10, of_Z 30) |}
|}.

(** The record [x1] of the specification. *)
Definition tonga : UsgsFeature.t := {|
  UsgsFeature.id := "x1";
  UsgsFeature.properties := {|
    UsgsFeature.mag := Some (of_ratio 78 10);
    UsgsFeature.place := "Tonga";
    UsgsFeature.time := 1000;
    UsgsFeature.updated := 1000;
    UsgsFeature.url := "https://earthquake.usgs.gov/earthquakes/eventpage/x1";
    UsgsFeature.title := "M 7.8 - Tonga";
    UsgsFeature.tsunami := 1 |};
  UsgsFeature.geometry := {|
    UsgsFeature.coordinates :=
      (SFopp (of_ratio 1752 10), SFopp (of_ratio 201 10), of_Z 10) |}
|}.

(** A record without a magnitude. *)
Definition unrated : UsgsFeature.t := {|
  UsgsFeature.id := "x0";
  UsgsFeature.properties := {|
    UsgsFeature.mag := None;
    UsgsFeature.place := "Fiji";
    UsgsFeature.time := 1000;
    UsgsFeature.updated := 1000;
    UsgsFeature.url := "https://earthquake.usgs.gov/earthquakes/eventpage/x0";
    UsgsFeature.title := "M ? - Fiji";
    UsgsFeature.tsunami := 0 |};
  UsgsFeature.geometry := {|
    UsgsFeature.coordinates := (of_Z 178, SFopp (of_Z 18), of_Z 10) |}
|}.

(** A record of magnitude 5.0 with the given id and time of update. *)
Definition record (id : string) (updated : Z) : UsgsFeature.t := {|
  UsgsFeature.id := id;
  UsgsFeature.properties := {|
    UsgsFeature.mag := Some (of_Z 5);
    UsgsFeature.place := "Kuril Islands";
    UsgsFeature.time := 0;
    UsgsFeature.updated := updated;
    UsgsFeature.url := "https://earthquake.usgs.gov/earthquakes/eventpage/" ++ id;
    UsgsFeature.title := "M 5.0 - Kuril Islands";
    UsgsFeature.tsunami := 0 |};
  UsgsFeature.geometry := {|
    UsgsFeature.coordinates := (of_Z 152, of_Z 47, of_Z 30) |}
|}.

(** A feed whose second record has a time of update, 9e15, that no date can
    hold. *)
Definition undated_feed : list UsgsFeature.t :=
  [record "a" 1; record "b" 9000000000000000; record "c" 2; record "d" 3].

(** An event with the given id, magnitude, place and link. *)
Definition event (id : string) (magnitude : number) (location link : string)
  : EarthquakeEvent.t := {|
  EarthquakeEvent.id := id;
  EarthquakeEvent.title := "M - " ++ location;
  EarthquakeEvent.updated := Some 1793680496789;
  EarthquakeEvent.link := link;
  EarthquakeEvent.location := location;
  EarthquakeEvent.magnitude := magnitude;
  EarthquakeEvent.depth := of_Z 10;
  EarthquakeEvent.lat := SFopp (of_Z 33);
  EarthquakeEvent.lon := SFopp (of_Z 71);
  EarthquakeEvent.isTsunamiWarning := false;
  EarthquakeEvent.rawSummary := "M - " ++ location;
  EarthquakeEvent.alertLevel := none
|}.

(** The event [e1] and the settings of the specification's example. *)
Definition chile : EarthquakeEvent.t :=
  event "e1" (of_ratio 72 10) "Chile"
    "https://earthquake.usgs.gov/earthquakes/eventpage/e1".

Definition settings (minMagnitude : number) (template : string)
  : AlertSettings.t := {|
  AlertSettings.minMagnitude := minMagnitude;
  AlertSettings.notificationsEnabled := true;
  AlertSettings.recipients := ["a@b.com"];
  AlertSettings.emailTemplate := template
|}.

Definition settings_7 : AlertSettings.t :=
  settings (of_Z 7) "M{magnitude} near {location}".

(** The template the application starts with. *)
Definition default_template : string :=
  "ALERT: A magnitude {magnitude} earthquake occurred near {location} at {time}. More details: {link}".

(** The settings the application starts with: no recipient yet. *)
Definition default_settings : AlertSettings.t := {|
  AlertSettings.minMagnitude := of_Z 7;
  AlertSettings.notificationsEnabled := true;
  AlertSettings.recipients := [];
  AlertSettings.emailTemplate := default_template
|}.

(** An event of magnitude 6.8, and one of magnitude 7.2 with the same id. *)
Definition fiji : EarthquakeEvent.t :=
  event "e3" (of_ratio 68 10) "Fiji"
    "https://earthquake.usgs.gov/earthquakes/eventpage/e3".

Definition fiji_again : EarthquakeEvent.t :=
  event "e3" (of_ratio 72 10) "Fiji"
    "https://earthquake.usgs.gov/earthquakes/eventpage/e3".

(** A clock that stands still at the given time. *)
Definition still (t : JsDate.Time) : JsDate.Clock := fun _ => t.

(** An event whose place name has two dollar signs in a row. *)
Definition pass_creek : EarthquakeEvent.t :=
  event "e2" (of_ratio 72 10) "Pa$$ Creek"
    "https://earthquake.usgs.gov/earthquakes/eventpage/e2".

(** Two runs of the effect on the same event list, a minute apart. *)
Definition two_calls : list Call :=
  [([chile], settings_7, still 1793680500000);
   ([chile], settings_7, still 1793680560000)].

Definition empty_store : Store :=
  {| processedEvents := []; generatedAlerts := [] |}.

End Sample.

(** ** [App.tsx]: the cards and the dashboard *)

(** [getMagnitudeClass]. *)
Definition getMagnitudeClass (magnitude : number) : string :=
  if geb magnitude (of_ratio 75 10)
  then "bg-danger/20 text-danger border-danger/50"
  else if geb magnitude (of_Z 6)
  then "bg-warning/20 text-warning border-warning/50"
  else "bg-gray-200 dark:bg-sentinel-border text-gray-600 dark:text-sentinel-text-secondary border-gray-300 dark:border-sentinel-border".

Definition AlertLevel_eqb (a b : AlertLevel) : bool :=
  match a, b with
  | none, none | info, info | advisory, advisory
  | watch, watch | warning, warning => true
  | _, _ => false
  end.

(** The list [TsunamiAlertsCard] shows. *)
Definition TsunamiAlertsCard_activeAlerts (events : list EarthquakeEvent.t)
  : list EarthquakeEvent.t :=
  filter (fun e =>
            negb (AlertLevel_eqb (EarthquakeEvent.alertLevel e) none)
            && negb (AlertLevel_eqb (EarthquakeEvent.alertLevel e) info))
    events.

(** The figures that [TsunamiDashboard] derives from the event list
    ([useMemo]); [now] is the reading of the clock. *)
Module Stats.
Record t : Type := {
  activeAlerts : nat;
  highPriorityAlerts : nat;
  twentyFourHourQuakes : nat;
  latestSignificant : option EarthquakeEvent.t;
  recentM6PlusQuakes : list EarthquakeEvent.t
}.
End Stats.

Definition is_active (e : EarthquakeEvent.t) : bool :=
  AlertLevel_eqb (EarthquakeEvent.alertLevel e) watch
  || AlertLevel_eqb (EarthquakeEvent.alertLevel e) warning
  || AlertLevel_eqb (EarthquakeEvent.alertLevel e) advisory.

Definition is_high_priority (e : EarthquakeEvent.t) : bool :=
  AlertLevel_eqb (EarthquakeEvent.alertLevel e) warning.

Definition is_m6_plus (e : EarthquakeEvent.t) : bool :=
  geb (EarthquakeEvent.magnitude e) (of_Z 6).

Definition dashboard_stats (now : JsDate.Time)
  (events : list EarthquakeEvent.t) : Stats.t :=
  let twentyFourHoursAgo := now - 24 * 60 * 60 * 1000 in
  let activeAlerts := filter is_active events in
  let highPriorityAlerts := filter is_high_priority events in
  let twentyFourHourQuakes :=
    filter (fun e =>
              match JsDate.getTime (EarthquakeEvent.updated e) with
              | Some t => t >? twentyFourHoursAgo
              | None => false
              end
              && is_m6_plus e) events in
  let recentM6PlusQuakes := slice0 10 (filter is_m6_plus events) in
  {| Stats.activeAlerts := List.length activeAlerts;
     Stats.highPriorityAlerts := List.length highPriorityAlerts;
     Stats.twentyFourHourQuakes := List.length twentyFourHourQuakes;
     Stats.latestSignificant :=
       if (0 <? List.length events)%nat then nth_error events 0 else None;
     Stats.recentM6PlusQuakes := recentM6PlusQuakes |}.

(** *** The markers of [EarthquakeMapCard] *)

Definition js_add (a b : number) : number := SFadd prec emax a b.
Definition js_sub (a b : number) : number := SFsub prec emax a b.
Definition js_mul (a b : number) : number := SFmul prec emax a b.
Definition js_div (a b : number) : number := SFdiv prec emax a b.

(** [a === b] on numbers. *)
Definition js_strict_eq (a b : number) : bool := SFeqb a b.

(** [Math.max(a, b)]: NaN when an argument is, and [+0] above [-0]. *)
Definition Math_max (a b : number) : number :=
  match a, b with
  | S754_nan, _ | _, S754_nan => S754_nan
  | S754_zero sa, S754_zero sb => S754_zero (sa && sb)
  | _, _ => if SFltb a b then b else a
  end.

(** [convertCoordsToPixels]: the pair [(x, y)]. *)
Definition convertCoordsToPixels (lat lon width height : number)
  : number * number :=
  let x := js_mul (js_add lon (of_Z 180)) (js_div width (of_Z 360)) in
  let y := js_mul (js_sub (of_Z 90) lat) (js_div height (of_Z 180)) in
  (x, y).

Module Point.
(** An event with its place on the map ([{...event, x, y, size, color}]). *)
Record t : Type := {
  event : EarthquakeEvent.t;
  x : number;
  y : number;
  size : number;
  color : string
}.
End Point.

Definition marker_color (magnitude : number) : string :=
  if geb magnitude (of_ratio 75 10) then "#f85149"
  else if geb magnitude (of_ratio 65 10) then "#f5a623"
  else "#FFD54F".

Definition marker_size (magnitude : number) : number :=
  Math_max (of_Z 5) (js_mul (js_sub magnitude (of_ratio 55 10)) (of_Z 7)).

(** The [points] of [EarthquakeMapCard] for the measured width and height. *)
Definition map_points (width height : number)
  (events : list EarthquakeEvent.t) : list Point.t :=
  if js_strict_eq width (of_Z 0) then []
  else
    map (fun event =>
           let '(x, y) :=
             convertCoordsToPixels (EarthquakeEvent.lat event)
               (EarthquakeEvent.lon event) width height in
           {| Point.event := event;
              Point.x := x;
              Point.y := y;
              Point.size := marker_size (EarthquakeEvent.magnitude event);
              Point.color := marker_color (EarthquakeEvent.magnitude event)
           |})
      events.

(** *** The event id that [LatestEarthquakeCard] prints *)

(** [s.split(sep)] for a separator of one character: never empty. *)
Fixpoint split_on (sep : ascii) (s : string) : list string :=
  match s with
  | EmptyString => [EmptyString]
  | String a tl =>
      if Ascii.eqb a sep then EmptyString :: split_on sep tl
      else
        match split_on sep tl with
        | [] => [String a EmptyString]
        | piece :: pieces => String a piece :: pieces
        end
  end.

(** [arr.pop()], as far as its value goes. *)
Definition array_pop (arr : list string) : option string :=
  nth_error arr (List.length arr - 1).

(** [event.id.split(':').pop()?.split(',')[0] || 'N/A']. *)
Definition displayed_event_id (id : string) : string :=
  match array_pop (split_on ":" id) with
  | None => "N/A"
  | Some last =>
      match nth_error (split_on "," last) 0 with
      | None => "N/A"
      | Some EmptyString => "N/A"
      | Some first => first
      end
  end.

(** *** [EmailSettingsCard] *)

Module EmailSettingsCard.
(** The stored settings and the text of the input field. *)
Record t : Type := {
  settings : AlertSettings.t;
  newRecipient : string
}.
End EmailSettingsCard.

(** [arr.includes(x)] for strings. *)
Definition includes (arr : list string) (x : string) : bool :=
  existsb (String.eqb x) arr.

Definition with_recipients (s : AlertSettings.t) (recipients : list string)
  : AlertSettings.t :=
  {| AlertSettings.minMagnitude := AlertSettings.minMagnitude s;
     AlertSettings.notificationsEnabled :=
       AlertSettings.notificationsEnabled s;
     AlertSettings.recipients := recipients;
     AlertSettings.emailTemplate := AlertSettings.emailTemplate s |}.

Definition handleAddRecipient (card : EmailSettingsCard.t)
  : EmailSettingsCard.t :=
  let newRecipient := EmailSettingsCard.newRecipient card in
  let settings := EmailSettingsCard.settings card in
  if negb (String.eqb newRecipient "")
     && negb (includes (AlertSettings.recipients settings) newRecipient)
  then
    {| EmailSettingsCard.settings :=
         with_recipients settings
           (AlertSettings.recipients settings ++ [newRecipient])%list;
       EmailSettingsCard.newRecipient := "" |}
  else card.

Definition handleRemoveRecipient (recipientToRemove : string)
  (card : EmailSettingsCard.t) : EmailSettingsCard.t :=
  let settings := EmailSettingsCard.settings card in
  {| EmailSettingsCard.settings :=
       with_recipients settings
         (filter (fun r => negb (String.eqb r recipientToRemove))
            (AlertSettings.recipients settings));
     EmailSettingsCard.newRecipient := EmailSettingsCard.newRecipient card |}.

(** Typing in the input field. *)
Definition setNewRecipient (text : string) (card : EmailSettingsCard.t)
  : EmailSettingsCard.t :=
  {| EmailSettingsCard.settings := EmailSettingsCard.settings card;
     EmailSettingsCard.newRecipient := text |}.

(** What a user does to the list of recipients. *)
Inductive RecipientAction : Type :=
| Type_ (text : string)
| Submit
| Remove (recipient : string).

Definition recipient_step (card : EmailSettingsCard.t) (a : RecipientAction)
  : EmailSettingsCard.t :=
  match a with
  | Type_ text => setNewRecipient text card
  | Submit => handleAddRecipient card
  | Remove r => handleRemoveRecipient r card
  end.

(** *** Loading the feed *)

Module Fetch.

(** An element of the [features] array as [response.json()] returns it. The
    body is not checked against [UsgsFeature]: an element may be [null] (or
    another value that is no object), and an object may come without its
    [properties] or its [geometry]. [None] for [properties] says that the
    field is missing or [null]; [None] for [geometry] says that it is missing
    or [null], or has no array of [coordinates]. The parts that are there are
    taken to have the declared types. *)
Inductive Element : Type :=
| Null
| Object (id : string) (properties : option UsgsFeature.properties_t)
    (geometry : option UsgsFeature.geometry_t).

(** A record of the declared type, as an element. *)
Definition typed (feature : UsgsFeature.t) : Element :=
  Object (UsgsFeature.id feature) (Some (UsgsFeature.properties feature))
    (Some (UsgsFeature.geometry feature)).

(** What the body of the response parses to: not JSON at all, a falsy value,
    a value whose [features] is no array, or one with an array there. *)
Inductive Body : Type :=
| NotJson
| Falsy
| NoFeatures
| Features (features : list Element).

(** The answer to [fetch]: no answer, or a status with a body. *)
Inductive Response : Type :=
| NetworkError
| Http (ok : bool) (statusText : string) (body : Body).

(** What [fetchTsunamiData] throws. *)
Inductive Error : Type :=
| FetchRejected
| HttpError (message : string)
| JsonRejected
| TypeError.

Inductive Result (A : Type) : Type :=
| Resolved (value : A)
| Rejected (error : Error).

Arguments Resolved {A} value.
Arguments Rejected {A} error.

End Fetch.

(** [mapUsgsFeatureToEarthquakeEvent] on an element of the parsed body: it
    reads [feature.properties.mag] first, and [feature.geometry.coordinates]
    once it has found a magnitude; [None] is a [TypeError] thrown at one of
    the two. *)
Definition mapElement (feature : Fetch.Element)
  : option (option EarthquakeEvent.t) :=
  match feature with
  | Fetch.Null => None
  | Fetch.Object _ None _ => None
  | Fetch.Object id (Some props) geometry =>
      match UsgsFeature.mag props with
      | None => Some None
      | Some _ =>
          match geometry with
          | None => None
          | Some g =>
              Some (mapUsgsFeatureToEarthquakeEvent
                      {| UsgsFeature.id := id;
                         UsgsFeature.properties := props;
                         UsgsFeature.geometry := g |})
          end
      end
  end.

(** [arr.map(f)] for an [f] that may throw: the first throw ends it. *)
Fixpoint map_throwing {A B : Type} (f : A -> option B) (l : list A)
  : option (list B) :=
  match l with
  | [] => Some []
  | x :: l' =>
      match f x with
      | None => None
      | Some y =>
          match map_throwing f l' with
          | None => None
          | Some ys => Some (y :: ys)
          end
      end
  end.

(** The [map], [filter] and [sort] of [fetchTsunamiData] on the array of the
    parsed body. *)
Definition events_of (features : list Fetch.Element)
  : option (list EarthquakeEvent.t) :=
  match map_throwing mapElement features with
  | None => None
  | Some mapped =>
      Some (sort (SortCompare by_updated_desc)
              (map_filter_non_null (fun x => x) mapped))
  end.

Definition fetchTsunamiData (response : Fetch.Response)
  : Fetch.Result (list EarthquakeEvent.t) :=
  match response with
  | Fetch.NetworkError => Fetch.Rejected Fetch.FetchRejected
  | Fetch.Http false statusText _ =>
      Fetch.Rejected
        (Fetch.HttpError ("Failed to fetch data from USGS: " ++ statusText))
  | Fetch.Http true _ Fetch.NotJson => Fetch.Rejected Fetch.JsonRejected
  | Fetch.Http true _ (Fetch.Features features) =>
      match events_of features with
      | Some events => Fetch.Resolved events
      | None => Fetch.Rejected Fetch.TypeError
      end
  | Fetch.Http true _ _ => Fetch.Resolved []
  end.

Module Dashboard.
(** The state of [TsunamiDashboard] that loading touches. *)
Record t : Type := {
  events : list EarthquakeEvent.t;
  isInitialLoad : bool;
  isRefreshing : bool;
  error : option string
}.

Definition initial : t :=
  {| events := []; isInitialLoad := true; isRefreshing := false;
     error := None |}.

Definition setEvents (v : list EarthquakeEvent.t) (st : t) : t :=
  {| events := v; isInitialLoad := isInitialLoad st;
     isRefreshing := isRefreshing st; error := error st |}.

Definition setError (v : option string) (st : t) : t :=
  {| events := events st; isInitialLoad := isInitialLoad st;
     isRefreshing := isRefreshing st; error := v |}.

Definition setIsRefreshing (v : bool) (st : t) : t :=
  {| events := events st; isInitialLoad := isInitialLoad st;
     isRefreshing := v; error := error st |}.

Definition setIsInitialLoad (v : bool) (st : t) : t :=
  {| events := events st; isInitialLoad := v;
     isRefreshing := isRefreshing st; error := error st |}.
End Dashboard.

(** [loadData], for the answer the request gets: the state it leaves, and
    whether it throws. *)
Definition loadData (response : Fetch.Response) (st : Dashboard.t)
  : Dashboard.t * bool :=
  let st := Dashboard.setError None st in
  match fetchTsunamiData response with
  | Fetch.Resolved data => (Dashboard.setEvents data st, false)
  | Fetch.Rejected _ =>
      (Dashboard.setError
         (Some "Failed to fetch data. Please try again later.") st, true)
  end.

(** [handleRefresh], from the click to the end of the request. *)
Definition handleRefresh (response : Fetch.Response) (st : Dashboard.t)
  : Dashboard.t :=
  if Dashboard.isRefreshing st then st
  else
    let st := Dashboard.setIsRefreshing true st in
    let '(st, _) := loadData response st in
    Dashboard.setIsRefreshing false st.

(** The first load ([initialFetch]). *)
Definition initialFetch (response : Fetch.Response) (st : Dashboard.t)
  : Dashboard.t :=
  let '(st, _) := loadData response st in
  Dashboard.setIsInitialLoad false st.

(** The first load followed by refreshes, one answer each. *)
Definition session (first : Fetch.Response) (later : list Fetch.Response)
  : Dashboard.t :=
  fold_left (fun st response => handleRefresh response st) later
    (initialFetch first Dashboard.initial).

(** The alert log holds at most one alert per event id, for ids that are
    all recorded as processed. *)
Definition log_inv (st : Store) : Prop :=
  NoDup (event_ids (generatedAlerts st))
  /\ (forall x, In x (event_ids (generatedAlerts st)) ->
        In x (processedEvents st)).

(** The events that get an alert when ids are unique in the list: not yet
    processed, and meeting the threshold. *)
Definition due (alertSettings : AlertSettings.t) (processed : list string)
  (e : EarthquakeEvent.t) : bool :=
  negb (StringSet.has processed (EarthquakeEvent.id e))
  && geb (EarthquakeEvent.magnitude e)
         (AlertSettings.minMagnitude alertSettings).

(** The list of recipients has no duplicate and no empty address. *)
Definition recipients_ok (card : EmailSettingsCard.t) : Prop :=
  NoDup (AlertSettings.recipients (EmailSettingsCard.settings card))
  /\ ~ In "" (AlertSettings.recipients (EmailSettingsCard.settings card)).

Definition card_recipients (card : EmailSettingsCard.t) : list string :=
  AlertSettings.recipients (EmailSettingsCard.settings card).

(** Whether a character occurs in a string. *)
Fixpoint occurs (c : ascii) (s : string) : bool :=
  match s with
  | EmptyString => false
  | String a tl => Ascii.eqb a c || occurs c tl
  end.

(** The elements [mapUsgsFeatureToEarthquakeEvent] cannot read: [null], an
    object without [properties], and one that has a magnitude and no
    [geometry]. *)
Definition unreadable (feature : Fetch.Element) : bool :=
  match feature with
  | Fetch.Null => true
  | Fetch.Object _ None _ => true
  | Fetch.Object _ (Some props) None =>
      match UsgsFeature.mag props with
      | Some _ => true
      | None => false
      end
  | Fetch.Object _ (Some _) (Some _) => false
  end.

(** The elements of an array that are records with both their parts. *)
Fixpoint records (features : list Fetch.Element) : list UsgsFeature.t :=
  match features with
  | [] => []
  | Fetch.Object id (Some props) (Some g) :: rest =>
      {| UsgsFeature.id := id;
         UsgsFeature.properties := props;
         UsgsFeature.geometry := g |} :: records rest
  | _ :: rest => records rest
  end.

(** A response whose records, if it has any, carry times of update that a
    date can hold. *)
Definition dated_response (response : Fetch.Response) : Prop :=
  match response with
  | Fetch.Http true _ (Fetch.Features features) => dated (records features)
  | _ => True
  end.

(** The data of a response, when [fetchTsunamiData] resolves. *)
Definition resolved (response : Fetch.Response)
  : option (list EarthquakeEvent.t) :=
  match fetchTsunamiData response with
  | Fetch.Resolved data => Some data
  | Fetch.Rejected _ => None
  end.

(** The data of the last response that resolved, [shown] when none did. *)
Fixpoint latest_data (responses : list Fetch.Response)
  (shown : list EarthquakeEvent.t) : list EarthquakeEvent.t :=
  match responses with
  | [] => shown
  | response :: rest =>
      latest_data rest
        (match resolved response with
         | Some data => data
         | None => shown
         end)
  end.

(** *** Reading a date back: [new Date(alert.timestamp)]

    [Date.parse] on the complete form of the date-time string format,
    [YYYY-MM-DDTHH:mm:ss.sssZ] with a year of four digits or a sign and six
    digits, and legal values in every field. *)

Module IsoFormat.

(** The first [n] characters of a string, and the rest. *)
Fixpoint take (n : nat) (s : string) : option (string * string) :=
  match n with
  | O => Some (EmptyString, s)
  | S n' =>
      match s with
      | EmptyString => None
      | String c tl =>
          match take n' tl with
          | Some (a, b) => Some (String c a, b)
          | None => None
          end
      end
  end.

(** The number that a string of decimal digits writes. *)
Definition parse_digits (s : string) : option Z :=
  match NilEmpty.uint_of_string s with
  | Some u => Some (Z.of_N (N.of_uint u))
  | None => None
  end.

(** A field of [w] digits at the head of a string. *)
Definition field (w : nat) (s : string) : option (Z * string) :=
  match take w s with
  | Some (a, rest) =>
      match parse_digits a with
      | Some v => Some (v, rest)
      | None => None
      end
  | None => None
  end.

Definition expect (c : ascii) (s : string) : option string :=
  match s with
  | String a tl => if Ascii.eqb a c then Some tl else None
  | EmptyString => None
  end.

(** The year: four digits, or a sign and six digits ([-000000] is not a
    year). *)
Definition year_field (s : string) : option (Z * string) :=
  match s with
  | String c tl =>
      if Ascii.eqb c "+" then field 6 tl
      else if Ascii.eqb c "-" then
        match field 6 tl with
        | Some (y, rest) => if y =? 0 then None else Some (- y, rest)
        | None => None
        end
      else field 4 s
  | EmptyString => None
  end.

Definition is_leap (y : Z) : bool :=
  ((y mod 4 =? 0) && negb (y mod 100 =? 0)) || (y mod 400 =? 0).

Definition days_in_month (y m : Z) : Z :=
  if m =? 2 then (if is_leap y then 29 else 28)
  else if (m =? 4) || (m =? 6) || (m =? 9) || (m =? 11) then 30
  else 31.

(** The day number of a date of the calendar (the inverse of
    [JsDate.civil_from_days]). *)
Definition days_from_civil (y m d : Z) : Z :=
  let y' := if m <=? 2 then y - 1 else y in
  let era := y' / 400 in
  let yoe := y' - era * 400 in
  let doy := (153 * (if 2 <? m then m - 3 else m + 9) + 2) / 5 + d - 1 in
  let doe := yoe * 365 + yoe / 4 - yoe / 100 + doy in
  era * 146097 + doe - 719468.

Definition bind {A B : Type} (x : option A) (k : A -> option B) : option B :=
  match x with
  | Some a => k a
  | None => None
  end.

(** The date that a string of the complete form with legal fields gives;
    [None] says that the string is not of that form. *)
Definition parse (s : string) : option JsDate.Date :=
  bind (year_field s) (fun '(y, s) =>
  bind (expect "-" s) (fun s =>
  bind (field 2 s) (fun '(m, s) =>
  bind (expect "-" s) (fun s =>
  bind (field 2 s) (fun '(d, s) =>
  bind (expect "T" s) (fun s =>
  bind (field 2 s) (fun '(h, s) =>
  bind (expect ":" s) (fun s =>
  bind (field 2 s) (fun '(mi, s) =>
  bind (expect ":" s) (fun s =>
  bind (field 2 s) (fun '(sec, s) =>
  bind (expect "." s) (fun s =>
  bind (field 3 s) (fun '(ms, s) =>
  bind (expect "Z" s) (fun s =>
  match s with
  | String _ _ => None
  | EmptyString =>
      if (1 <=? m) && (m <=? 12) && (1 <=? d) && (d <=? days_in_month y m)
         && (h <=? 23) && (mi <=? 59) && (sec <=? 59)
      then
        Some (JsDate.TimeClip
                (days_from_civil y m d * JsDate.msPerDay
                 + h * 3600000 + mi * 60000 + sec * 1000 + ms))
      else None
  end)))))))))))))).

End IsoFormat.

(** [new Date(s)] for a string: the complete form is read as the language
    prescribes; [other] stands for the rest of [Date.parse] (the shorter
    forms, time zone offsets, and what an engine accepts besides). *)
Definition Date_of_string (other : string -> JsDate.Date)
  (s : string) : JsDate.Date :=
  match IsoFormat.parse s with
  | Some r => r
  | None => other s
  end.

(** The line "Generated: ..." of [GeneratedAlertsCard], without the label:
    [formatDateTime(new Date(alert.timestamp))]; an invalid date prints as
    [Invalid Date] twice. *)
Definition generated_at (host : Host) (other : string -> JsDate.Date)
  (alert : GeneratedAlert.t) : string :=
  formatDateTime host
    (Date_of_string other (GeneratedAlert.timestamp alert)).

(** An alert whose id is the id of its event, a dash, and a stamp of 24
    characters. *)
Definition keyed (a : GeneratedAlert.t) : Prop :=
  exists stamp,
    GeneratedAlert.id a
    = EarthquakeEvent.id (GeneratedAlert.event a) ++ "-" ++ stamp
    /\ String.length stamp = 24%nat.

Definition log_keys_inv (st : Store) : Prop :=
  log_inv st /\ Forall keyed (generatedAlerts st).

(** The time values of the years 0 to 9999, from [0000-01-01T00:00:00.000Z]
    to [9999-12-31T23:59:59.999Z]: those whose year prints with four
    digits. *)
Definition plain_years (t : Z) : Prop :=
  - 62167219200000 <= t <= 253402300799999.

Definition plain_clock (call : Call) : Prop :=
  forall n, plain_years (snd call n).

(** ** More sample data *)

Module Scenario.

(** A record of magnitude 6.8 without the tsunami flag. *)
Definition quiet : UsgsFeature.t := {|
  UsgsFeature.id := "us68";
  UsgsFeature.properties := {|
    UsgsFeature.mag := Some (of_ratio 68 10);
    UsgsFeature.place := "Kermadec Islands";
    UsgsFeature.time := 1793680000000;
    UsgsFeature.updated := 1793680400000;
    UsgsFeature.url :=
      "https://earthquake.usgs.gov/earthquakes/eventpage/us68";
    UsgsFeature.title := "M 6.8 - Kermadec Islands";
    UsgsFeature.tsunami := 0 |};
  UsgsFeature.geometry := {|
    UsgsFeature.coordinates :=
      (SFopp (of_ratio 1779 10), SFopp (of_ratio 305 10), of_Z 35) |}
|}.

(** The settings card with one recipient and an address typed in. *)
Definition card : EmailSettingsCard.t := {|
  EmailSettingsCard.settings := Sample.settings_7;
  EmailSettingsCard.newRecipient := "ops@example.org"
|}.

Definition clicks : list RecipientAction :=
  [Submit; Type_ "a@b.com"; Submit; Remove "a@b.com"; Type_ ""; Submit].

(** A time of day in November 2026, in milliseconds. *)
Definition some_time : JsDate.Time := 1793680496789.

Definition clock : JsDate.Clock := Sample.still 1793680500000.

Definition no_other : string -> JsDate.Date := fun _ => None.

End Scenario.

(** * Properties *)

(** ** Numbers *)

Lemma SFcompare_Lt_Gt (a b : number) :
  SFcompare a b = Some Lt -> SFcompare b a = Some Gt.
Proof.
  destruct a as [sa|sa| |sa ma ea], b as [sb|sb| |sb mb eb]; simpl;
    try discriminate;
    try (destruct sa); try (destruct sb); try discriminate; try reflexivity.
  all: rewrite (Z.compare_antisym ea eb); destruct (ea ?= eb)%Z; simpl;
    try discriminate; try reflexivity.
  all: change (PosDef.Pos.compare_cont Eq ?a ?b) with (Pos.compare a b);
    rewrite (Pos.compare_antisym ma mb); destruct (ma ?= mb)%positive; simpl;
    try discriminate; try reflexivity.
Qed.

(** A number strictly below another is not [>=] it. *)
Lemma ltb_not_geb (a b : number) : ltb a b = true -> geb a b = false.
Proof.
  unfold ltb, geb, SFltb, SFleb. intros H.
  destruct (SFcompare a b) as [[]|] eqn:E; try discriminate.
  rewrite (SFcompare_Lt_Gt _ _ E). reflexivity.
Qed.

(** ** The normalizer *)

Lemma In_map_filter_non_null {A B : Type} (f : A -> option B) (l : list A)
  (y : B) :
  In y (map_filter_non_null f l) <-> exists x, In x l /\ f x = Some y.
Proof.
  induction l as [|a l IH]; simpl.
  - split; [tauto | intros (x & [] & _)].
  - destruct (f a) as [b|] eqn:E; simpl; rewrite IH; split.
    + intros [<- | (x & Hx & Hf)]; eauto.
    + intros (x & [<- | Hx] & Hf); [left; congruence | eauto].
    + intros (x & Hx & Hf); eauto.
    + intros (x & [<- | Hx] & Hf); [congruence | eauto].
Qed.

Lemma length_map_filter_non_null {A B : Type} (f : A -> option B)
  (l : list A) :
  List.length (map_filter_non_null f l)
  = List.length
      (filter (fun x => match f x with Some _ => true | None => false end) l).
Proof.
  induction l as [|a l IH]; simpl; [reflexivity|].
  destruct (f a); simpl; congruence.
Qed.

Section SortFacts.
Context {A : Type} (compare : A -> A -> Z).

Lemma sort_insert_perm (x : A) (l : list A) :
  Permutation (x :: l) (sort_insert compare x l).
Proof.
  induction l as [|y l IH]; simpl; [reflexivity|].
  destruct (compare x y <=? 0); [reflexivity|].
  rewrite perm_swap. now constructor.
Qed.

Lemma sort_perm (l : list A) : Permutation l (sort compare l).
Proof.
  induction l as [|x l IH]; simpl; [constructor|].
  rewrite <- sort_insert_perm. now constructor.
Qed.

(** Inserting does not disturb the order of a class of elements that the
    comparator never puts after the inserted one. *)
Lemma filter_sort_insert (p : A -> bool) (x : A) (l : list A) :
  (forall y, p x = true -> p y = true -> compare x y <= 0) ->
  filter p (sort_insert compare x l) = filter p (x :: l).
Proof.
  intros Hp. induction l as [|y l IH]; [reflexivity|].
  cbn [sort_insert]. destruct (Z.leb_spec (compare x y) 0) as [Hle|Hgt];
    [reflexivity|].
  cbn [filter] in *. rewrite IH.
  destruct (p x) eqn:Ex, (p y) eqn:Ey; try reflexivity.
  specialize (Hp y eq_refl Ey). lia.
Qed.

Lemma filter_sort (p : A -> bool) (l : list A) :
  (forall x y, p x = true -> p y = true -> compare x y <= 0) ->
  filter p (sort compare l) = filter p l.
Proof.
  intros Hp. induction l as [|x l IH]; [reflexivity|].
  cbn [sort]. rewrite filter_sort_insert by (intros; now apply Hp).
  cbn [filter]. now rewrite IH.
Qed.
End SortFacts.

Lemma TimeClip_in_range (t : Z) : in_range t -> JsDate.TimeClip t = Some t.
Proof.
  unfold in_range, JsDate.TimeClip. intros H.
  destruct (Z.leb_spec (Z.abs t) 8640000000000000); [reflexivity | lia].
Qed.

Lemma TimeClip_Some (t u : Z) :
  JsDate.TimeClip t = Some u -> u = t /\ in_range t.
Proof.
  unfold in_range, JsDate.TimeClip.
  destruct (Z.leb_spec (Z.abs t) 8640000000000000); [|discriminate].
  intros [= <-]. split; [reflexivity | lia].
Qed.

Lemma timed_time (e : EarthquakeEvent.t) :
  timed e -> exists t, JsDate.getTime (EarthquakeEvent.updated e) = Some t.
Proof.
  unfold timed. destruct (JsDate.getTime _) as [t|]; [eauto | congruence].
Qed.

(** Between events with valid dates the comparator is the difference of the
    time values, and it orders them consistently. *)
Lemma sort_insert_newer_first (x : EarthquakeEvent.t)
  (l : list EarthquakeEvent.t) :
  timed x ->
  Forall timed l ->
  LocallySorted newer_first l ->
  LocallySorted newer_first (sort_insert (SortCompare by_updated_desc) x l).
Proof.
  intros Hx Hl Hs. apply timed_time in Hx as (tx & Ex).
  induction Hs as [|y|y z l Hs IH Hyz]; cbn [sort_insert].
  - constructor.
  - apply Forall_inv in Hl. apply timed_time in Hl as (ty & Ey).
    unfold SortCompare, by_updated_desc. rewrite Ex, Ey.
    destruct (Z.leb_spec (ty - tx) 0);
      repeat constructor; unfold newer_first; rewrite ?Ex, ?Ey; lia.
  - pose proof (Forall_inv Hl) as Hy. apply timed_time in Hy as (ty & Ey).
    apply Forall_inv_tail in Hl.
    pose proof (Forall_inv Hl) as Hz. apply timed_time in Hz as (tz & Ez).
    specialize (IH Hl). cbn [sort_insert] in IH.
    assert (Hyz' : tz <= ty).
    { unfold newer_first in Hyz. now rewrite Ey, Ez in Hyz. }
    unfold SortCompare, by_updated_desc in *. rewrite Ex, Ey, Ez.
    rewrite Ex, Ez in IH.
    destruct (Z.leb_spec (ty - tx) 0).
    + repeat constructor; trivial.
      unfold newer_first; rewrite Ex, Ey; lia.
    + destruct (Z.leb_spec (tz - tx) 0).
      * repeat constructor; trivial;
          unfold newer_first; rewrite ?Ex, ?Ey, ?Ez; lia.
      * constructor; trivial.
Qed.

Lemma sort_timed (l : list EarthquakeEvent.t) :
  Forall timed l -> Forall timed (sort (SortCompare by_updated_desc) l).
Proof.
  intros H. rewrite Forall_forall in *. intros e He. apply H.
  exact (Permutation_in _ (Permutation_sym (sort_perm _ _)) He).
Qed.

Lemma sort_newer_first (l : list EarthquakeEvent.t) :
  Forall timed l ->
  LocallySorted newer_first (sort (SortCompare by_updated_desc) l).
Proof.
  induction l as [|x l IH]; intros H; cbn [sort]; [constructor|].
  apply sort_insert_newer_first.
  - exact (Forall_inv H).
  - apply sort_timed. exact (Forall_inv_tail H).
  - apply IH. exact (Forall_inv_tail H).
Qed.

Lemma LocallySorted_adjacent {A : Type} (R : A -> A -> Prop) (l : list A) :
  LocallySorted R l ->
  forall i a b, nth_error l i = Some a -> nth_error l (S i) = Some b -> R a b.
Proof.
  induction 1 as [|y|y z l Hl IH Hyz]; intros i a b Ha Hb.
  - destruct i; discriminate.
  - destruct i as [|[|i]]; discriminate.
  - destruct i as [|i]; cbn in Ha, Hb.
    + congruence.
    + eapply IH; eassumption.
Qed.

Lemma map_feature_None (feature : UsgsFeature.t) :
  UsgsFeature.mag (UsgsFeature.properties feature) = None ->
  mapUsgsFeatureToEarthquakeEvent feature = None.
Proof.
  unfold mapUsgsFeatureToEarthquakeEvent. now intros ->.
Qed.

Lemma map_feature_Some (feature : UsgsFeature.t) (e : EarthquakeEvent.t) :
  mapUsgsFeatureToEarthquakeEvent feature = Some e ->
  UsgsFeature.mag (UsgsFeature.properties feature)
  = Some (EarthquakeEvent.magnitude e).
Proof.
  unfold mapUsgsFeatureToEarthquakeEvent.
  destruct (UsgsFeature.mag _) as [m|]; [|discriminate].
  destruct (UsgsFeature.coordinates _) as [[lon lat] depth].
  now intros [= <-].
Qed.

Lemma map_feature_total (feature : UsgsFeature.t) (m : number) :
  UsgsFeature.mag (UsgsFeature.properties feature) = Some m ->
  exists e, mapUsgsFeatureToEarthquakeEvent feature = Some e.
Proof.
  intros Hm. unfold mapUsgsFeatureToEarthquakeEvent. rewrite Hm.
  destruct (UsgsFeature.coordinates _) as [[lon lat] depth]. eauto.
Qed.

(** C2: the alert level of a record with a magnitude follows the first
    matching rule: the tsunami flag gives [warning]; otherwise a magnitude of
    at least 7.5 gives [advisory]; otherwise one of at least 6.5 gives [info];
    otherwise [none]. *)
Theorem C2_alert_level_priority (feature : UsgsFeature.t) (m : number) :
  UsgsFeature.mag (UsgsFeature.properties feature) = Some m ->
  exists e,
    mapUsgsFeatureToEarthquakeEvent feature = Some e
    /\ EarthquakeEvent.isTsunamiWarning e
       = (UsgsFeature.tsunami (UsgsFeature.properties feature) =? 1)
    /\ (EarthquakeEvent.isTsunamiWarning e = true ->
        EarthquakeEvent.alertLevel e = warning)
    /\ (EarthquakeEvent.isTsunamiWarning e = false ->
        geb m (of_ratio 75 10) = true ->
        EarthquakeEvent.alertLevel e = advisory)
    /\ (EarthquakeEvent.isTsunamiWarning e = false ->
        geb m (of_ratio 75 10) = false ->
        geb m (of_ratio 65 10) = true ->
        EarthquakeEvent.alertLevel e = info)
    /\ (EarthquakeEvent.isTsunamiWarning e = false ->
        geb m (of_ratio 75 10) = false ->
        geb m (of_ratio 65 10) = false ->
        EarthquakeEvent.alertLevel e = none).
Proof.
  intros Hm. unfold mapUsgsFeatureToEarthquakeEvent. rewrite Hm.
  destruct (UsgsFeature.coordinates _) as [[lon lat] depth].
  eexists; split; [reflexivity|].
  cbn [EarthquakeEvent.isTsunamiWarning EarthquakeEvent.alertLevel].
  destruct (UsgsFeature.tsunami _ =? 1);
    destruct (geb m (of_ratio 75 10)); destruct (geb m (of_ratio 65 10));
    repeat split; intros; congruence.
Qed.

Lemma C2_alert_level_priority_witness :
  exists e,
    mapUsgsFeatureToEarthquakeEvent Sample.flagged_9 = Some e
    /\ EarthquakeEvent.magnitude e = of_Z 9
    /\ EarthquakeEvent.alertLevel e = warning.
Proof.
  destruct (C2_alert_level_priority Sample.flagged_9 (of_Z 9) eq_refl)
    as (e & He & Ht & Hw & _).
  exists e. split; [exact He|]. split.
  - pose proof (map_feature_Some _ _ He) as Hm.
    change (Some (of_Z 9) = Some (EarthquakeEvent.magnitude e)) in Hm.
    now injection Hm.
  - apply Hw. rewrite Ht. reflexivity.
Defined.

Example normalize_sample :
  map EarthquakeEvent.id
    (normalize [Sample.flagged_9; Sample.unrated; Sample.tonga])
  = ["x1"; "us9"]%list.
Proof. vm_compute. reflexivity. Qed.

(** C5: a record without a magnitude gives no event, every event of the
    output comes from a record of the input that has a magnitude (and carries
    it), and the output has as many events as the input has records with a
    magnitude; [normalize] is total, there is no error to raise. *)
Theorem C5_records_without_magnitude_dropped (features : list UsgsFeature.t) :
  (forall feature,
      UsgsFeature.mag (UsgsFeature.properties feature) = None ->
      mapUsgsFeatureToEarthquakeEvent feature = None)
  /\ (forall e,
        In e (normalize features) ->
        exists feature,
          In feature features
          /\ mapUsgsFeatureToEarthquakeEvent feature = Some e
          /\ UsgsFeature.mag (UsgsFeature.properties feature)
             = Some (EarthquakeEvent.magnitude e))
  /\ List.length (normalize features)
     = List.length (filter has_magnitude features).
Proof.
  split; [exact map_feature_None|]. split.
  - intros e He. unfold normalize in He.
    apply (Permutation_in _ (Permutation_sym (sort_perm _ _))) in He.
    apply In_map_filter_non_null in He as (feature & Hin & Hmap).
    exists feature. auto using map_feature_Some.
  - unfold normalize.
    rewrite <- (Permutation_length (sort_perm _ _)).
    rewrite length_map_filter_non_null. f_equal.
    apply filter_ext. intros feature. unfold has_magnitude.
    destruct (mapUsgsFeatureToEarthquakeEvent feature) as [e|] eqn:E.
    + now rewrite (map_feature_Some _ _ E).
    + destruct (UsgsFeature.mag _) as [m|] eqn:Em; [|reflexivity].
      destruct (map_feature_total feature m Em) as (e & He).
      congruence.
Qed.

Lemma map_feature_updated (feature : UsgsFeature.t) (e : EarthquakeEvent.t) :
  mapUsgsFeatureToEarthquakeEvent feature = Some e ->
  EarthquakeEvent.updated e
  = JsDate.of_number (UsgsFeature.updated (UsgsFeature.properties feature)).
Proof.
  unfold mapUsgsFeatureToEarthquakeEvent.
  destruct (UsgsFeature.mag _) as [m|]; [|discriminate].
  destruct (UsgsFeature.coordinates _) as [[lon lat] depth].
  now intros [= <-].
Qed.

(** The events of a feed with valid times of update have valid dates. *)
Lemma dated_timed (features : list UsgsFeature.t) :
  dated features ->
  Forall timed
    (map_filter_non_null mapUsgsFeatureToEarthquakeEvent features).
Proof.
  intros Hd. apply Forall_forall. intros e He.
  apply In_map_filter_non_null in He as (feature & Hin & Hmap).
  unfold timed, JsDate.getTime.
  rewrite (map_feature_updated _ _ Hmap). unfold JsDate.of_number.
  rewrite TimeClip_in_range; [discriminate|].
  apply Hd; [exact Hin|]. unfold has_magnitude.
  now rewrite (map_feature_Some _ _ Hmap).
Qed.

Lemma normalize_newer_first (features : list UsgsFeature.t) :
  dated features -> LocallySorted newer_first (normalize features).
Proof.
  intros Hd. apply sort_newer_first, dated_timed, Hd.
Qed.




(** C8: the coordinate triple is read as longitude, latitude, depth. *)
Theorem C8_coordinates_not_transposed (feature : UsgsFeature.t)
  (e : EarthquakeEvent.t) (c0 c1 c2 : number) :
  mapUsgsFeatureToEarthquakeEvent feature = Some e ->
  UsgsFeature.coordinates (UsgsFeature.geometry feature) = (c0, c1, c2) ->
  EarthquakeEvent.lon e = c0
  /\ EarthquakeEvent.lat e = c1
  /\ EarthquakeEvent.depth e = c2.
Proof.
  unfold mapUsgsFeatureToEarthquakeEvent.
  destruct (UsgsFeature.mag _) as [m|]; [|discriminate].
  intros He Hc. rewrite Hc in He. injection He as <-. auto.
Qed.

Lemma C8_coordinates_not_transposed_witness :
  exists e,
    mapUsgsFeatureToEarthquakeEvent Sample.tonga = Some e
    /\ EarthquakeEvent.alertLevel e = warning
    /\ EarthquakeEvent.lon e = SFopp (of_ratio 1752 10)
    /\ EarthquakeEvent.lat e = SFopp (of_ratio 201 10)
    /\ EarthquakeEvent.depth e = of_Z 10.
Proof.
  eexists. split; [reflexivity|]. split; [reflexivity|].
  exact (C8_coordinates_not_transposed Sample.tonga _ _ _ _
           eq_refl eq_refl).
Defined.

(** ** Sets of strings *)

Lemma has_In (s : StringSet.t) (x : string) :
  StringSet.has s x = true <-> In x s.
Proof.
  unfold StringSet.has. rewrite existsb_exists. split.
  - intros (y & Hy & E). apply String.eqb_eq in E. now subst.
  - intros H. exists x. split; [exact H | apply String.eqb_refl].
Qed.

Lemma In_add (s : StringSet.t) (x y : string) :
  In y (StringSet.add s x) <-> In y s \/ y = x.
Proof.
  unfold StringSet.add. destruct (StringSet.has s x) eqn:E.
  - apply has_In in E. split; [tauto | intros [H | ->]; assumption].
  - rewrite in_app_iff. cbn. intuition congruence.
Qed.

Lemma In_fold_add (l : list string) (acc : StringSet.t) (x : string) :
  In x (fold_left StringSet.add l acc) <-> In x acc \/ In x l.
Proof.
  revert acc. induction l as [|y l IH]; intros acc; cbn.
  - tauto.
  - rewrite IH, In_add. intuition congruence.
Qed.

Lemma In_of_array (l : list string) (x : string) :
  In x (StringSet.of_array l) <-> In x l.
Proof.
  unfold StringSet.of_array. rewrite In_fold_add. cbn. tauto.
Qed.

Lemma NoDup_map_eq {A B : Type} (f : A -> B) (l : list A) (x y : A) :
  NoDup (map f l) -> In x l -> In y l -> f x = f y -> x = y.
Proof.
  induction l as [|a l IH]; cbn; [tauto|].
  intros Hnd [-> | Hx] [-> | Hy] E; inversion Hnd as [|? ? Hnotin Hnd'];
    subst; trivial.
  - exfalso. apply Hnotin. rewrite E. now apply in_map.
  - exfalso. apply Hnotin. rewrite <- E. now apply in_map.
  - now apply IH.
Qed.

(** ** The loop of the effect *)

Section LoopFacts.

Variable host : Host.
Variable alertSettings : AlertSettings.t.

Local Open Scope list_scope.

Lemma visit_skip (st : Loop) (event : EarthquakeEvent.t) :
  In (EarthquakeEvent.id event) (newProcessed st)
  \/ geb (EarthquakeEvent.magnitude event)
         (AlertSettings.minMagnitude alertSettings) = false ->
  visit host alertSettings st event = st.
Proof.
  unfold visit. intros [H | H].
  - apply has_In in H. now rewrite H.
  - rewrite H. now destruct (StringSet.has _ _).
Qed.

Lemma forEach_skip (events : list EarthquakeEvent.t) (st : Loop) :
  (forall e, In e events ->
     geb (EarthquakeEvent.magnitude e)
         (AlertSettings.minMagnitude alertSettings) = true ->
     In (EarthquakeEvent.id e) (newProcessed st)) ->
  forEach host alertSettings events st = st.
Proof.
  unfold forEach. induction events as [|e events IH]; intros H; cbn.
  - reflexivity.
  - rewrite visit_skip.
    + apply IH. intros e' He'. apply H. now right.
    + destruct (geb _ _) eqn:E; [left | now right].
      apply H; [now left | exact E].
Qed.

(** What a run of the loop adds to its variables. *)
Lemma forEach_spec (events : list EarthquakeEvent.t) (st : Loop) :
  exists added,
    newAlerts (forEach host alertSettings events st) = newAlerts st ++ added
    /\ newProcessed (forEach host alertSettings events st)
       = newProcessed st ++ event_ids added
    /\ Forall (generated_from host alertSettings events) added
    /\ stamped (clock st) added
    /\ (forall e, In e events ->
          geb (EarthquakeEvent.magnitude e)
              (AlertSettings.minMagnitude alertSettings) = true ->
          In (EarthquakeEvent.id e)
             (newProcessed (forEach host alertSettings events st))).
Proof.
  unfold forEach. revert st.
  induction events as [|e events IH]; intros st; cbn [fold_left].
  - exists []. rewrite !app_nil_r.
    split; [reflexivity|]. split; [reflexivity|]. split; [constructor|].
    split; [|intros e []].
    intros i a Hi. destruct i; discriminate.
  - destruct (IH (visit host alertSettings st e))
      as (added & Ha & Hp & Hg & Hs & Hin).
    assert (Hweak : forall l,
      Forall (generated_from host alertSettings events) l ->
      Forall (generated_from host alertSettings (e :: events)) l).
    { intros l. apply Forall_impl. intros a (H1 & H2 & H3).
      repeat split; trivial. now right. }
    unfold visit in *.
    destruct (StringSet.has (newProcessed st) (EarthquakeEvent.id e)) eqn:Eh.
    { exists added. do 4 (split; [auto|]).
      intros e' [<- | He'] Hge; [|now apply Hin].
      rewrite Hp. apply in_or_app. left. now apply has_In. }
    destruct (geb (EarthquakeEvent.magnitude e) _) eqn:Eg.
    2: { exists added. do 4 (split; [auto|]).
      intros e' [<- | He'] Hge; [congruence | now apply Hin]. }
    cbn [JsDate.now newAlerts newProcessed clock] in *.
    unfold StringSet.add in *. rewrite Eh in *.
    eexists (_ :: added). split; [|split; [|split; [|split]]].
    + rewrite Ha, <- app_assoc. reflexivity.
    + rewrite Hp, <- app_assoc. reflexivity.
    + constructor; [|now apply Hweak].
      split; [now left|]. split; [exact Eg | reflexivity].
    + intros [|i] a Hi; cbn in Hi.
      * injection Hi as <-. cbn. auto.
      * destruct (Hs i a Hi) as [H1 H2]. rewrite H1, H2.
        replace (2 * S i)%nat with (S (S (2 * i))) by lia.
        replace (2 * S i + 1)%nat with (S (S (2 * i + 1))) by lia.
        split; reflexivity.
    + intros e' [<- | He'] Hge; [|now apply Hin].
      rewrite Hp. apply in_or_app. left. apply in_or_app. right. now left.
Qed.

End LoopFacts.

(** ** [evaluate] and the effect *)

Section EvaluateFacts.

Variable host : Host.

Local Open Scope list_scope.

(** The two outcomes of [evaluate]: nothing new and the stored ids as they
    were, or new alerts and the set of ids extended with theirs. *)
Lemma evaluate_spec (events : list EarthquakeEvent.t)
  (alertSettings : AlertSettings.t) (processed : list string)
  (c : JsDate.Clock) :
  exists alerts,
    Forall (generated_from host alertSettings events) alerts
    /\ stamped c alerts
    /\ (forall e, idle alertSettings events = false -> In e events ->
          geb (EarthquakeEvent.magnitude e)
              (AlertSettings.minMagnitude alertSettings) = true ->
          In (EarthquakeEvent.id e) (processed ++ event_ids alerts))
    /\ ((alerts = []
         /\ evaluate host events alertSettings processed c = ([], processed))
        \/ (alerts <> []
            /\ idle alertSettings events = false
            /\ evaluate host events alertSettings processed c
               = (alerts, StringSet.of_array processed ++ event_ids alerts))).
Proof.
  unfold evaluate. destruct (idle alertSettings events) eqn:Ei.
  - exists []. split; [constructor|]. split.
    + intros i a Hi. destruct i; discriminate.
    + split; [discriminate | now left].
  - unfold scan.
    destruct (forEach_spec host alertSettings events
                {| newProcessed := StringSet.of_array processed;
                   newAlerts := []; clock := c |})
      as (added & Ha & Hp & Hg & Hs & Hin).
    cbn [newAlerts newProcessed clock] in *. cbn [app] in Ha.
    exists added. split; [exact Hg|]. split; [exact Hs|]. split.
    + intros e _ He Hge. specialize (Hin e He Hge). rewrite Hp in Hin.
      apply in_app_or in Hin. apply in_or_app.
      destruct Hin as [Hin | Hin]; [left | now right].
      now apply In_of_array.
    + rewrite Ha, Hp. destruct added as [|a added].
      * left. now split.
      * right. split; [discriminate|]. now split.
Qed.

Lemma evaluate_all_processed (events : list EarthquakeEvent.t)
  (alertSettings : AlertSettings.t) (processed : list string)
  (c : JsDate.Clock) :
  (forall e, In e events ->
     geb (EarthquakeEvent.magnitude e)
         (AlertSettings.minMagnitude alertSettings) = true ->
     In (EarthquakeEvent.id e) processed) ->
  evaluate host events alertSettings processed c = ([], processed).
Proof.
  intros H. unfold evaluate, scan.
  destruct (idle alertSettings events); [reflexivity|].
  rewrite forEach_skip; [reflexivity|].
  intros e He Hge. cbn. apply In_of_array. now apply H.
Qed.

(** The effect, read off the result of [evaluate]. *)
Lemma alertEffect_evaluate (events : list EarthquakeEvent.t)
  (alertSettings : AlertSettings.t) (c : JsDate.Clock) (st : Store) :
  alertEffect host events alertSettings c st
  = match evaluate host events alertSettings (processedEvents st) c with
    | ([], _) => st
    | (alerts, processed) =>
        {| processedEvents := processed;
           generatedAlerts := firstn 50 (alerts ++ generatedAlerts st) |}
    end.
Proof.
  unfold alertEffect, evaluate.
  destruct (idle alertSettings events); [reflexivity|].
  destruct (newAlerts (scan host events alertSettings (processedEvents st) c))
    as [|a l] eqn:E; reflexivity.
Qed.

(** A second run on the ids the first one left finds nothing to do. *)
Lemma evaluate_twice (events : list EarthquakeEvent.t)
  (alertSettings : AlertSettings.t) (processed : list string)
  (c c' : JsDate.Clock) :
  evaluate host events alertSettings
    (snd (evaluate host events alertSettings processed c)) c'
  = ([], snd (evaluate host events alertSettings processed c)).
Proof.
  destruct (idle alertSettings events) eqn:Ei.
  { unfold evaluate. rewrite Ei. reflexivity. }
  apply evaluate_all_processed. intros e He Hge.
  destruct (evaluate_spec events alertSettings processed c)
    as (alerts & _ & _ & Hin & [[-> E] | (_ & _ & E)]); rewrite E; cbn [snd].
  - specialize (Hin e Ei He Hge). cbn in Hin. now rewrite app_nil_r in Hin.
  - specialize (Hin e Ei He Hge). apply in_app_or in Hin. apply in_or_app.
    destruct Hin; [left | now right]. now apply In_of_array.
Qed.

End EvaluateFacts.

(** C1: when every event that meets the threshold already has its id among
    the processed ids, [evaluate] returns no new alert and the processed ids
    as they were. *)
Theorem C1_evaluate_idempotent (host : Host)
  (events : list EarthquakeEvent.t) (alertSettings : AlertSettings.t)
  (processed : list string) (c : JsDate.Clock) :
  (forall e, In e events ->
     geb (EarthquakeEvent.magnitude e)
         (AlertSettings.minMagnitude alertSettings) = true ->
     In (EarthquakeEvent.id e) processed) ->
  evaluate host events alertSettings processed c = ([], processed).
Proof.
  apply evaluate_all_processed.
Qed.

Lemma C1_evaluate_idempotent_witness :
  snd (evaluate utc_host [Sample.chile] Sample.settings_7 []
         (Sample.still 1793680500000))
  = ["e1"]%list
  /\ evaluate utc_host [Sample.chile] Sample.settings_7 ["e1"]%list
       (Sample.still 1793680560000)
     = ([], ["e1"]%list).
Proof.
  split; [vm_compute; reflexivity|].
  apply C1_evaluate_idempotent.
  intros e [<- | []] _. left. reflexivity.
Defined.

(** C10: the processed ids only grow: every id that was processed still is
    afterwards, the ids that are new are those of the events of the new
    alerts, each of which is an event of the list that meets the threshold;
    and when there is no new alert, the processed ids and the alert log are
    left as they are. *)
Theorem C10_processed_ids_grow (host : Host)
  (events : list EarthquakeEvent.t) (alertSettings : AlertSettings.t)
  (processed : list string) (c : JsDate.Clock) :
  let r := evaluate host events alertSettings processed c in
  (forall x, In x processed -> In x (snd r))
  /\ (forall x, In x (snd r) <-> In x processed \/ In x (event_ids (fst r)))
  /\ Forall (generated_from host alertSettings events) (fst r)
  /\ (fst r = [] ->
      snd r = processed
      /\ forall log,
           alertEffect host events alertSettings c
             {| processedEvents := processed; generatedAlerts := log |}
           = {| processedEvents := processed; generatedAlerts := log |}).
Proof.
  intros r.
  assert (Hiff : forall x,
    In x (snd r) <-> In x processed \/ In x (event_ids (fst r))).
  { intros x. subst r.
    destruct (evaluate_spec host events alertSettings processed c)
      as (alerts & _ & _ & _ & [[-> E] | (_ & _ & E)]); rewrite E; cbn.
    - tauto.
    - now rewrite in_app_iff, In_of_array. }
  split; [intros x Hx; apply Hiff; now left|].
  split; [exact Hiff|]. split.
  - subst r.
    destruct (evaluate_spec host events alertSettings processed c)
      as (alerts & Hg & _ & _ & [[-> E] | (_ & _ & E)]); rewrite E; cbn.
    + constructor.
    + exact Hg.
  - intros Hnil.
    assert (Er : evaluate host events alertSettings processed c
                 = ([], processed)).
    { destruct (evaluate_spec host events alertSettings processed c)
        as (alerts & _ & _ & _ & [[-> E] | (Hne & _ & E)]); [exact E|].
      subst r. rewrite E in Hnil. cbn in Hnil. contradiction. }
    subst r. rewrite Er. split; [reflexivity|].
    intros log. rewrite alertEffect_evaluate.
    cbn [processedEvents generatedAlerts]. now rewrite Er.
Qed.

(** ** The alert log *)

Lemma alertEffect_log (host : Host) (events : list EarthquakeEvent.t)
  (alertSettings : AlertSettings.t) (c : JsDate.Clock) (st : Store) :
  (List.length (generatedAlerts st) <= 50)%nat ->
  generatedAlerts (alertEffect host events alertSettings c st)
  = firstn 50
      (fst (evaluate host events alertSettings (processedEvents st) c)
       ++ generatedAlerts st)%list.
Proof.
  intros Hlen. rewrite alertEffect_evaluate.
  destruct (evaluate host events alertSettings (processedEvents st) c)
    as [[|a alerts] p]; cbn [fst generatedAlerts].
  - cbn [app]. now rewrite firstn_all2.
  - reflexivity.
Qed.

Lemma alertEffect_log_capped (host : Host) (events : list EarthquakeEvent.t)
  (alertSettings : AlertSettings.t) (c : JsDate.Clock) (st : Store) :
  (List.length (generatedAlerts st) <= 50)%nat ->
  (List.length
     (generatedAlerts (alertEffect host events alertSettings c st)) <= 50)%nat.
Proof.
  intros Hlen. rewrite alertEffect_log by exact Hlen.
  rewrite length_firstn. apply Nat.le_min_l.
Qed.

Lemma run_effects_log_capped (host : Host) (calls : list Call) (st : Store) :
  (List.length (generatedAlerts st) <= 50)%nat ->
  (List.length (generatedAlerts (run_effects host calls st)) <= 50)%nat.
Proof.
  revert st. induction calls as [|[[events alertSettings] c] calls IH];
    intros st Hlen; cbn [run_effects].
  - exact Hlen.
  - apply IH. now apply alertEffect_log_capped.
Qed.

(** C4: from a log of at most 50 alerts, any sequence of runs of the effect
    leaves a log of at most 50 alerts; a run puts its new alerts in front of
    the log and keeps the first 50 entries. *)
Theorem C4_alert_log_capped (host : Host) (calls : list Call) (st : Store) :
  (List.length (generatedAlerts st) <= 50)%nat ->
  (List.length (generatedAlerts (run_effects host calls st)) <= 50)%nat
  /\ forall events alertSettings c,
       generatedAlerts (alertEffect host events alertSettings c st)
       = firstn 50
           (fst (evaluate host events alertSettings (processedEvents st) c)
            ++ generatedAlerts st)%list.
Proof.
  intros Hlen. split.
  - now apply run_effects_log_capped.
  - intros events alertSettings c. now apply alertEffect_log.
Qed.

Lemma C4_alert_log_capped_witness :
  (List.length
     (generatedAlerts
        (run_effects utc_host Sample.two_calls Sample.empty_store)) <= 50)%nat.
Proof.
  apply (C4_alert_log_capped utc_host Sample.two_calls Sample.empty_store).
  cbn. apply Nat.le_0_l.
Defined.

(** ** Events below the threshold *)

Lemma idle_false (alertSettings : AlertSettings.t)
  (events : list EarthquakeEvent.t) (e : EarthquakeEvent.t) :
  AlertSettings.notificationsEnabled alertSettings = true ->
  AlertSettings.recipients alertSettings <> [] ->
  In e events ->
  idle alertSettings events = false.
Proof.
  unfold idle. intros -> Hr He.
  destruct (AlertSettings.recipients alertSettings); [contradiction|].
  destruct events; [contradiction | reflexivity].
Qed.

(** An alert about an event with the id of [e] is about [e], when ids are
    unique in the list. *)
Lemma generated_for (host : Host) (alertSettings : AlertSettings.t)
  (events : list EarthquakeEvent.t) (alerts : list GeneratedAlert.t)
  (e : EarthquakeEvent.t) :
  NoDup (map EarthquakeEvent.id events) ->
  In e events ->
  Forall (generated_from host alertSettings events) alerts ->
  In (EarthquakeEvent.id e) (event_ids alerts) ->
  exists a,
    In a alerts /\ GeneratedAlert.event a = e
    /\ generated_from host alertSettings events a.
Proof.
  intros Hnd He Hg Hin. apply in_map_iff in Hin as (a & Hid & Ha).
  rewrite Forall_forall in Hg. specialize (Hg a Ha).
  exists a. split; [exact Ha|]. split; [|exact Hg].
  destruct Hg as (Hev & _).
  exact (NoDup_map_eq EarthquakeEvent.id events _ _ Hnd Hev He Hid).
Qed.

(** C3, with the conditions it needs: with ids unique in the event list, an
    event strictly below the threshold gets no alert, and its id, if it was
    not processed, still is not; once the threshold is at most its magnitude
    (notifications on, a recipient present), a following run over a list with
    unique ids that has the event gives it an alert and records its id. *)
Theorem C3_below_threshold_stays_eligible (host : Host)
  (events events' : list EarthquakeEvent.t)
  (alertSettings lowered : AlertSettings.t) (processed : list string)
  (c c' : JsDate.Clock) (e : EarthquakeEvent.t) :
  NoDup (map EarthquakeEvent.id events) ->
  In e events ->
  ltb (EarthquakeEvent.magnitude e)
      (AlertSettings.minMagnitude alertSettings) = true ->
  ~ In (EarthquakeEvent.id e) processed ->
  let r1 := evaluate host events alertSettings processed c in
  ~ In (EarthquakeEvent.id e) (event_ids (fst r1))
  /\ ~ In (EarthquakeEvent.id e) (snd r1)
  /\ (NoDup (map EarthquakeEvent.id events') ->
      In e events' ->
      AlertSettings.notificationsEnabled lowered = true ->
      AlertSettings.recipients lowered <> [] ->
      geb (EarthquakeEvent.magnitude e)
          (AlertSettings.minMagnitude lowered) = true ->
      let r2 := evaluate host events' lowered (snd r1) c' in
      (exists a,
          In a (fst r2) /\ GeneratedAlert.event a = e
          /\ GeneratedAlert.body a
             = render host (AlertSettings.emailTemplate lowered) e)
      /\ In (EarthquakeEvent.id e) (snd r2)).
Proof.
  intros Hnd He Hlt Hnew r1.
  apply ltb_not_geb in Hlt.
  assert (H1 : ~ In (EarthquakeEvent.id e) (event_ids (fst r1))
               /\ ~ In (EarthquakeEvent.id e) (snd r1)).
  { subst r1.
    destruct (evaluate_spec host events alertSettings processed c)
      as (alerts & Hg & _ & _ & [[-> E] | (_ & _ & E)]); rewrite E;
      cbn [fst snd event_ids map].
    - split; [intros [] | exact Hnew].
    - assert (Hno : ~ In (EarthquakeEvent.id e) (event_ids alerts)).
      { intros Hin.
        destruct (generated_for host alertSettings events alerts e
                    Hnd He Hg Hin) as (a & _ & <- & _ & Hge & _).
        congruence. }
      split; [exact Hno|].
      rewrite in_app_iff, In_of_array. tauto. }
  destruct H1 as [H1 H2]. split; [exact H1|]. split; [exact H2|].
  intros Hnd' He' Hon Hrec Hge r2. subst r2.
  pose proof (idle_false lowered events' e Hon Hrec He') as Hidle.
  destruct (evaluate_spec host events' lowered (snd r1) c')
    as (alerts & Hg & _ & Hin & Hcases).
  specialize (Hin e Hidle He' Hge). apply in_app_or in Hin.
  destruct Hin as [Hin | Hin]; [contradiction|].
  destruct Hcases as [[-> E] | (_ & _ & E)]; [destruct Hin|].
  rewrite E. cbn [fst snd].
  destruct (generated_for host lowered events' alerts e Hnd' He' Hg Hin)
    as (a & Ha & Hev & _ & _ & Hbody).
  split.
  - exists a. split; [exact Ha|]. split; [exact Hev|]. now rewrite <- Hev.
  - apply in_or_app. now right.
Qed.

Lemma C3_below_threshold_stays_eligible_witness :
  ~ In "e1"
      (snd (evaluate utc_host [Sample.chile]
              (Sample.settings (of_ratio 75 10) "M{magnitude} near {location}")
              [] (Sample.still 1793680500000)))
  /\ In "e1"
       (snd (evaluate utc_host [Sample.chile] Sample.settings_7
               (snd (evaluate utc_host [Sample.chile]
                       (Sample.settings (of_ratio 75 10)
                          "M{magnitude} near {location}")
                       [] (Sample.still 1793680500000)))
               (Sample.still 1793680560000))).
Proof.
  assert (Hnd : NoDup (map EarthquakeEvent.id [Sample.chile])).
  { constructor; [intros [] | constructor]. }
  destruct (C3_below_threshold_stays_eligible utc_host
              [Sample.chile] [Sample.chile]
              (Sample.settings (of_ratio 75 10) "M{magnitude} near {location}")
              Sample.settings_7 []
              (Sample.still 1793680500000) (Sample.still 1793680560000)
              Sample.chile Hnd (or_introl eq_refl) eq_refl (fun H => H))
    as (_ & H2 & H3).
  split; [exact H2|].
  apply H3; try reflexivity; [exact Hnd | now left | discriminate].
Defined.

(** C3 as it stands, for every event list, settings and processed ids,
    fails: with the settings the application starts with there is no
    recipient, and the effect does nothing, whatever the threshold is
    lowered to. *)
Lemma C3_not_always_eligible :
  ~ (forall (host : Host) (events : list EarthquakeEvent.t)
       (alertSettings : AlertSettings.t) (processed : list string)
       (c c' : JsDate.Clock) (e : EarthquakeEvent.t) (m : number),
        In e events ->
        ltb (EarthquakeEvent.magnitude e)
            (AlertSettings.minMagnitude alertSettings) = true ->
        geb (EarthquakeEvent.magnitude e) m = true ->
        let r1 := evaluate host events alertSettings processed c in
        ~ In (EarthquakeEvent.id e) (event_ids (fst r1))
        /\ (In (EarthquakeEvent.id e) (snd r1) ->
            In (EarthquakeEvent.id e) processed)
        /\ exists a,
             In a (fst (evaluate host events
                          (with_minMagnitude alertSettings m) (snd r1) c'))
             /\ GeneratedAlert.event a = e).
Proof.
  intros H.
  destruct (H utc_host [Sample.fiji] Sample.default_settings []
              (Sample.still 1793680500000) (Sample.still 1793680560000)
              Sample.fiji (of_ratio 65 10) (or_introl eq_refl)
              eq_refl eq_refl) as (_ & _ & a & Ha & _).
  exact Ha.
Qed.

(** Lowering the threshold from 7.0 to 6.5 gives the event of magnitude 6.8
    no alert when there is no recipient, when its id is among the processed
    ids already, and when an event of magnitude 7.2 with the same id stands
    in the list; in the last case the first run records the id. *)
Example lowering_in_vain :
  evaluate utc_host [Sample.fiji]
    (with_minMagnitude Sample.default_settings (of_ratio 65 10)) []
    (Sample.still 1793680560000)
  = ([], [])
  /\ evaluate utc_host [Sample.fiji]
       (with_minMagnitude Sample.settings_7 (of_ratio 65 10)) ["e3"]%list
       (Sample.still 1793680560000)
     = ([], ["e3"]%list)
  /\ snd (evaluate utc_host [Sample.fiji; Sample.fiji_again]
            Sample.settings_7 [] (Sample.still 1793680500000))
     = ["e3"]%list
  /\ evaluate utc_host [Sample.fiji; Sample.fiji_again]
       (with_minMagnitude Sample.settings_7 (of_ratio 65 10)) ["e3"]%list
       (Sample.still 1793680560000)
     = ([], ["e3"]%list).
Proof. repeat split; vm_compute; reflexivity. Qed.

(** ** The clock *)

Section ClockFacts.

Variable host : Host.
Variable alertSettings : AlertSettings.t.

Local Open Scope list_scope.

(** The clock decides neither which alerts there are nor what they say. *)
Lemma visit_any_clock (st1 st2 : Loop) (e : EarthquakeEvent.t) :
  newProcessed st1 = newProcessed st2 ->
  map GeneratedAlert.event (newAlerts st1)
  = map GeneratedAlert.event (newAlerts st2) ->
  map GeneratedAlert.body (newAlerts st1)
  = map GeneratedAlert.body (newAlerts st2) ->
  newProcessed (visit host alertSettings st1 e)
  = newProcessed (visit host alertSettings st2 e)
  /\ map GeneratedAlert.event (newAlerts (visit host alertSettings st1 e))
     = map GeneratedAlert.event (newAlerts (visit host alertSettings st2 e))
  /\ map GeneratedAlert.body (newAlerts (visit host alertSettings st1 e))
     = map GeneratedAlert.body (newAlerts (visit host alertSettings st2 e)).
Proof.
  intros Hp He Hb. unfold visit. rewrite Hp.
  destruct (StringSet.has _ _); [auto|].
  destruct (geb _ _); [|auto].
  cbn. rewrite !map_app, He, Hb. auto.
Qed.

Lemma forEach_any_clock (events : list EarthquakeEvent.t) (st1 st2 : Loop) :
  newProcessed st1 = newProcessed st2 ->
  map GeneratedAlert.event (newAlerts st1)
  = map GeneratedAlert.event (newAlerts st2) ->
  map GeneratedAlert.body (newAlerts st1)
  = map GeneratedAlert.body (newAlerts st2) ->
  newProcessed (forEach host alertSettings events st1)
  = newProcessed (forEach host alertSettings events st2)
  /\ map GeneratedAlert.event (newAlerts (forEach host alertSettings events st1))
     = map GeneratedAlert.event
         (newAlerts (forEach host alertSettings events st2))
  /\ map GeneratedAlert.body (newAlerts (forEach host alertSettings events st1))
     = map GeneratedAlert.body
         (newAlerts (forEach host alertSettings events st2)).
Proof.
  unfold forEach. revert st1 st2.
  induction events as [|e events IH]; intros st1 st2 Hp He Hb; cbn.
  - auto.
  - destruct (visit_any_clock st1 st2 e Hp He Hb) as (Hp' & He' & Hb').
    now apply IH.
Qed.

(** The same readings give the same alerts. *)
Lemma visit_same_readings (st1 st2 : Loop) (e : EarthquakeEvent.t) :
  newProcessed st1 = newProcessed st2 ->
  newAlerts st1 = newAlerts st2 ->
  (forall n, clock st1 n = clock st2 n) ->
  newProcessed (visit host alertSettings st1 e)
  = newProcessed (visit host alertSettings st2 e)
  /\ newAlerts (visit host alertSettings st1 e)
     = newAlerts (visit host alertSettings st2 e)
  /\ (forall n, clock (visit host alertSettings st1 e) n
                = clock (visit host alertSettings st2 e) n).
Proof.
  intros Hp Ha Hc. unfold visit. rewrite Hp.
  destruct (StringSet.has _ _); [auto|].
  destruct (geb _ _); [|auto].
  cbn. rewrite Ha, !Hc. auto.
Qed.

Lemma forEach_same_readings (events : list EarthquakeEvent.t)
  (st1 st2 : Loop) :
  newProcessed st1 = newProcessed st2 ->
  newAlerts st1 = newAlerts st2 ->
  (forall n, clock st1 n = clock st2 n) ->
  newProcessed (forEach host alertSettings events st1)
  = newProcessed (forEach host alertSettings events st2)
  /\ newAlerts (forEach host alertSettings events st1)
     = newAlerts (forEach host alertSettings events st2).
Proof.
  unfold forEach. revert st1 st2.
  induction events as [|e events IH]; intros st1 st2 Hp Ha Hc; cbn.
  - auto.
  - destruct (visit_same_readings st1 st2 e Hp Ha Hc) as (Hp' & Ha' & Hc').
    now apply IH.
Qed.

End ClockFacts.

Lemma evaluate_stamped (host : Host) (events : list EarthquakeEvent.t)
  (alertSettings : AlertSettings.t) (processed : list string)
  (c : JsDate.Clock) :
  stamped c (fst (evaluate host events alertSettings processed c)).
Proof.
  destruct (evaluate_spec host events alertSettings processed c)
    as (alerts & _ & Hs & _ & [[-> E] | (_ & _ & E)]); now rewrite E.
Qed.

Lemma evaluate_any_clock (host : Host) (events : list EarthquakeEvent.t)
  (alertSettings : AlertSettings.t) (processed : list string)
  (c1 c2 : JsDate.Clock) :
  snd (evaluate host events alertSettings processed c1)
  = snd (evaluate host events alertSettings processed c2)
  /\ map GeneratedAlert.event
       (fst (evaluate host events alertSettings processed c1))
     = map GeneratedAlert.event
         (fst (evaluate host events alertSettings processed c2))
  /\ map GeneratedAlert.body
       (fst (evaluate host events alertSettings processed c1))
     = map GeneratedAlert.body
         (fst (evaluate host events alertSettings processed c2)).
Proof.
  unfold evaluate, scan. destruct (idle alertSettings events); [auto|].
  destruct (forEach_any_clock host alertSettings events
              {| newProcessed := StringSet.of_array processed;
                 newAlerts := []; clock := c1 |}
              {| newProcessed := StringSet.of_array processed;
                 newAlerts := []; clock := c2 |}
              eq_refl eq_refl eq_refl) as (Hp & He & Hb).
  pose proof (f_equal (@List.length _) He) as Hlen.
  rewrite !length_map in Hlen. rewrite Hlen.
  destruct (0 <? _)%nat; cbn [fst snd StringSet.to_array]; auto.
Qed.

Lemma evaluate_same_readings (host : Host) (events : list EarthquakeEvent.t)
  (alertSettings : AlertSettings.t) (processed : list string)
  (c1 c2 : JsDate.Clock) :
  (forall n, c1 n = c2 n) ->
  evaluate host events alertSettings processed c1
  = evaluate host events alertSettings processed c2.
Proof.
  intros Hc. unfold evaluate, scan.
  destruct (idle alertSettings events); [reflexivity|].
  destruct (forEach_same_readings host alertSettings events
              {| newProcessed := StringSet.of_array processed;
                 newAlerts := []; clock := c1 |}
              {| newProcessed := StringSet.of_array processed;
                 newAlerts := []; clock := c2 |}
              eq_refl eq_refl Hc) as (Hp & Ha).
  now rewrite Hp, Ha.
Qed.

(** C9, as the code has it: two runs of [evaluate] on the same events,
    settings and processed ids agree on the processed ids they leave and,
    alert by alert, on the event and the body; the id and the timestamp of
    the [i]-th alert print the readings [2 i] and [2 i + 1] of the clock of
    the run, so that two runs that read the same times give the same
    result. *)
Theorem C9_deterministic_up_to_clock (host : Host)
  (events : list EarthquakeEvent.t) (alertSettings : AlertSettings.t)
  (processed : list string) (c1 c2 : JsDate.Clock) :
  let r1 := evaluate host events alertSettings processed c1 in
  let r2 := evaluate host events alertSettings processed c2 in
  snd r1 = snd r2
  /\ map GeneratedAlert.event (fst r1) = map GeneratedAlert.event (fst r2)
  /\ map GeneratedAlert.body (fst r1) = map GeneratedAlert.body (fst r2)
  /\ stamped c1 (fst r1)
  /\ stamped c2 (fst r2)
  /\ ((forall n, c1 n = c2 n) -> r1 = r2).
Proof.
  intros r1 r2.
  destruct (evaluate_any_clock host events alertSettings processed c1 c2)
    as (Hp & He & Hb).
  repeat (split; [assumption || apply evaluate_stamped|]).
  apply evaluate_same_readings.
Qed.

(** C9, as stated, fails: the same event, settings and processed ids give
    alerts with different ids at different times. *)
Lemma C9_not_deterministic :
  ~ (forall (host : Host) (events : list EarthquakeEvent.t)
       (alertSettings : AlertSettings.t) (processed : list string)
       (c1 c2 : JsDate.Clock),
        evaluate host events alertSettings processed c1
        = evaluate host events alertSettings processed c2).
Proof.
  intros H.
  specialize (H utc_host [Sample.chile] Sample.settings_7 []
                (Sample.still 1793680500000) (Sample.still 1793680560000)).
  apply (f_equal (fun r => map GeneratedAlert.id (fst r))) in H.
  vm_compute in H. discriminate H.
Qed.

Example two_runs_ids :
  map GeneratedAlert.id
    (fst (evaluate utc_host [Sample.chile] Sample.settings_7 []
            (Sample.still 1793680500000)))
  = ["e1-2026-11-03T04:35:00.000Z"]%list
  /\ map GeneratedAlert.id
       (fst (evaluate utc_host [Sample.chile] Sample.settings_7 []
               (Sample.still 1793680560000)))
     = ["e1-2026-11-03T04:36:00.000Z"]%list.
Proof. split; vm_compute; reflexivity. Qed.

(** ** Rendering the template *)

Lemma has_dollar_app (a b : string) :
  JsString.has_dollar (a ++ b)
  = JsString.has_dollar a || JsString.has_dollar b.
Proof.
  induction a as [|x a IH]; cbn; [reflexivity|].
  now rewrite IH, orb_assoc.
Qed.

(** A replacement text without a dollar sign is inserted as it is. *)
Lemma GetSubstitution_plain (matched before after template : string) :
  JsString.has_dollar template = false ->
  JsString.GetSubstitution matched before after template = template.
Proof.
  induction template as [|a tl IH]; cbn; [reflexivity|].
  destruct (Ascii.eqb a "$"); cbn; [discriminate|].
  intros H. now rewrite IH.
Qed.

Lemma replace_plain (s placeholder text : string) :
  JsString.has_dollar text = false ->
  JsString.replace s placeholder text = substitute_once s placeholder text.
Proof.
  intros H. unfold JsString.replace, substitute_once.
  destruct (index 0 placeholder s); [|reflexivity].
  now rewrite GetSubstitution_plain.
Qed.

Lemma has_dollar_uint (d : Decimal.uint) :
  JsString.has_dollar (NilEmpty.string_of_uint d) = false.
Proof.
  induction d; cbn; trivial.
Qed.

Lemma has_dollar_digits (n : Z) : JsString.has_dollar (digits n) = false.
Proof.
  unfold digits, NilZero.string_of_uint.
  destruct (N.to_uint _); try apply has_dollar_uint. reflexivity.
Qed.

(** [toFixed] prints no dollar sign. *)
Lemma has_dollar_toFixed1 (x : number) :
  JsString.has_dollar (toFixed1 x) = false.
Proof.
  destruct x as [s|s| |s m e]; cbn [toFixed1]; try reflexivity.
  - now destruct s.
  - rewrite has_dollar_app.
    replace (JsString.has_dollar (if s then "-" else "")) with false
      by now destruct s.
    cbn [orb]. destruct (at_least_1e21 m e).
    + unfold toString_large.
      destruct (shortest_from _ _ _ _ _) as [q n]. unfold exponent_form.
      pose proof (has_dollar_digits q) as Hq.
      pose proof (has_dollar_digits (n - 1)) as Hn.
      destruct (digits q) as [|a [|b rest]]; [reflexivity| |].
      * cbn in Hq |- *. destruct (Ascii.eqb a "$"); [discriminate|].
        exact Hn.
      * change (JsString.has_dollar (String a (String b rest)))
          with (Ascii.eqb a "$" || JsString.has_dollar (String b rest)) in Hq.
        change (JsString.has_dollar
                  (String a ("." ++ String b rest ++ "e+" ++ digits (n - 1))))
          with (Ascii.eqb a "$"
                || JsString.has_dollar
                     (String b rest ++ "e+" ++ digits (n - 1))).
        destruct (Ascii.eqb a "$"); [discriminate|]. cbn [orb] in Hq |- *.
        now rewrite !has_dollar_app, Hq, Hn.
    + unfold fixed1. rewrite !has_dollar_app, !has_dollar_digits. reflexivity.
Qed.

(** Where neither the place, the link nor the printed time has a dollar
    sign, the body is the template with the first occurrence of each
    placeholder replaced by its text. *)
Lemma render_plain (host : Host) (template : string)
  (event : EarthquakeEvent.t) :
  JsString.has_dollar (EarthquakeEvent.location event) = false ->
  JsString.has_dollar (EarthquakeEvent.link event) = false ->
  JsString.has_dollar (formatDateTime host (EarthquakeEvent.updated event))
  = false ->
  render host template event = render_spec host template event.
Proof.
  intros Hloc Hlink Htime. unfold render, render_spec.
  rewrite !replace_plain; trivial;
    rewrite ?has_dollar_app, has_dollar_toFixed1; reflexivity.
Qed.

(** The example of the specification: one alert, with body
    [M7.2 near Chile], and [e1] processed. *)
Lemma chile_example (c : JsDate.Clock) :
  map GeneratedAlert.body
    (fst (evaluate utc_host [Sample.chile] Sample.settings_7 [] c))
  = ["M7.2 near Chile"]%list
  /\ map GeneratedAlert.event
       (fst (evaluate utc_host [Sample.chile] Sample.settings_7 [] c))
     = [Sample.chile]%list
  /\ snd (evaluate utc_host [Sample.chile] Sample.settings_7 [] c)
     = ["e1"]%list.
Proof.
  repeat split; vm_compute; reflexivity.
Qed.

Example default_template_example (c : JsDate.Clock) :
  map GeneratedAlert.body
    (fst (evaluate utc_host [Sample.chile]
            (Sample.settings (of_Z 7) Sample.default_template) [] c))
  = ["ALERT: A magnitude 7.2 earthquake occurred near Chile at 03/11/2026 04:34:56. More details: https://earthquake.usgs.gov/earthquakes/eventpage/e1"]%list.
Proof. vm_compute. reflexivity. Qed.

(** A threshold that is not a number is met by no magnitude. *)
Example nan_threshold (c : JsDate.Clock) :
  evaluate utc_host [Sample.chile] (Sample.settings NaN Sample.default_template)
    [] c
  = ([], []).
Proof. vm_compute. reflexivity. Qed.

(** C7 fails on a text with dollar signs: for the place [Pa$$ Creek] the
    body of the alert reads [Pa$ Creek], where the template with the
    placeholder replaced by the place reads [Pa$$ Creek]. *)
Theorem C7_dollar_sign_in_place (c : JsDate.Clock) :
  map GeneratedAlert.body
    (fst (evaluate utc_host [Sample.pass_creek] Sample.settings_7 [] c))
  = ["M7.2 near Pa$ Creek"]%list
  /\ render_spec utc_host (AlertSettings.emailTemplate Sample.settings_7)
       Sample.pass_creek
     = "M7.2 near Pa$$ Creek".
Proof.
  split; vm_compute; reflexivity.
Qed.

(** * Further properties *)

(** ** The normalizer, continued *)

Lemma map_feature_id (feature : UsgsFeature.t) (e : EarthquakeEvent.t) :
  mapUsgsFeatureToEarthquakeEvent feature = Some e ->
  EarthquakeEvent.id e = UsgsFeature.id feature.
Proof.
  unfold mapUsgsFeatureToEarthquakeEvent.
  destruct (UsgsFeature.mag _) as [m|]; [|discriminate].
  destruct (UsgsFeature.coordinates _) as [[lon lat] depth].
  now intros [= <-].
Qed.

Lemma map_feature_levels (feature : UsgsFeature.t) (e : EarthquakeEvent.t) :
  mapUsgsFeatureToEarthquakeEvent feature = Some e ->
  EarthquakeEvent.alertLevel e <> watch
  /\ (EarthquakeEvent.alertLevel e = warning
      <-> EarthquakeEvent.isTsunamiWarning e = true)
  /\ (EarthquakeEvent.alertLevel e = advisory
      <-> EarthquakeEvent.isTsunamiWarning e = false
          /\ geb (EarthquakeEvent.magnitude e) (of_ratio 75 10) = true)
  /\ (EarthquakeEvent.alertLevel e = info ->
      geb (EarthquakeEvent.magnitude e) (of_ratio 65 10) = true)
  /\ (EarthquakeEvent.alertLevel e = none ->
      EarthquakeEvent.isTsunamiWarning e = false
      /\ geb (EarthquakeEvent.magnitude e) (of_ratio 65 10) = false).
Proof.
  unfold mapUsgsFeatureToEarthquakeEvent.
  destruct (UsgsFeature.mag _) as [m|]; [|discriminate].
  destruct (UsgsFeature.coordinates _) as [[lon lat] depth].
  intros [= <-].
  cbn [EarthquakeEvent.isTsunamiWarning EarthquakeEvent.alertLevel
       EarthquakeEvent.magnitude].
  destruct (UsgsFeature.tsunami _ =? 1);
    destruct (geb m (of_ratio 75 10)); destruct (geb m (of_ratio 65 10));
    repeat split; intros; try discriminate; try tauto;
    match goal with H : _ /\ _ |- _ => destruct H; discriminate end.
Qed.

Lemma In_normalize (features : list UsgsFeature.t) (e : EarthquakeEvent.t) :
  In e (normalize features) <->
  exists feature,
    In feature features /\ mapUsgsFeatureToEarthquakeEvent feature = Some e.
Proof.
  unfold normalize. rewrite <- In_map_filter_non_null. split.
  - apply Permutation_in, Permutation_sym, sort_perm.
  - apply Permutation_in, sort_perm.
Qed.

(** X1: an event of the normalized list is never at level [watch]; it is at
    [warning] exactly when its tsunami flag is set, at [advisory] exactly when
    the flag is not set and the magnitude is at least 7.5; [info] needs a
    magnitude of at least 6.5, and [none] means no flag and a magnitude that
    is not at least 6.5. *)
Theorem normalize_alert_levels (features : list UsgsFeature.t)
  (e : EarthquakeEvent.t) :
  In e (normalize features) ->
  EarthquakeEvent.alertLevel e <> watch
  /\ (EarthquakeEvent.alertLevel e = warning
      <-> EarthquakeEvent.isTsunamiWarning e = true)
  /\ (EarthquakeEvent.alertLevel e = advisory
      <-> EarthquakeEvent.isTsunamiWarning e = false
          /\ geb (EarthquakeEvent.magnitude e) (of_ratio 75 10) = true)
  /\ (EarthquakeEvent.alertLevel e = info ->
      geb (EarthquakeEvent.magnitude e) (of_ratio 65 10) = true)
  /\ (EarthquakeEvent.alertLevel e = none ->
      EarthquakeEvent.isTsunamiWarning e = false
      /\ geb (EarthquakeEvent.magnitude e) (of_ratio 65 10) = false).
Proof.
  intros He. apply In_normalize in He as (feature & _ & Hmap).
  exact (map_feature_levels feature e Hmap).
Qed.

Lemma map_filter_ids (features : list UsgsFeature.t) :
  map EarthquakeEvent.id
    (map_filter_non_null mapUsgsFeatureToEarthquakeEvent features)
  = map UsgsFeature.id (filter has_magnitude features).
Proof.
  induction features as [|f features IH]; [reflexivity|].
  cbn [map_filter_non_null filter]. unfold has_magnitude at 1.
  destruct (mapUsgsFeatureToEarthquakeEvent f) as [e|] eqn:E.
  - rewrite (map_feature_Some _ _ E). cbn [map].
    now rewrite IH, (map_feature_id _ _ E).
  - destruct (UsgsFeature.mag _) as [m|] eqn:Em; [|exact IH].
    destruct (map_feature_total f m Em) as (e & He). congruence.
Qed.

Lemma filter_keeps_distinct {X K : Type} (key : X -> K) (keep : X -> bool)
  (xs : list X) (Hxs : NoDup (map key xs)) :
  NoDup (map key (filter keep xs)).
Proof.
  induction xs as [|x xs IH]; cbn in *; [exact Hxs|].
  apply NoDup_cons_iff in Hxs as [Hfresh Hxs].
  destruct (keep x); [|exact (IH Hxs)].
  cbn. apply NoDup_cons; [|exact (IH Hxs)].
  intros Hin. apply Hfresh.
  apply in_map_iff in Hin as (x' & Hkey & Hin).
  apply filter_In in Hin as [Hin _]. rewrite <- Hkey. now apply in_map.
Qed.

(** X2: the ids of the normalized list are those of the records that have a
    magnitude, each as often; ids that are unique in the feed are unique in
    the list. *)
Theorem normalize_ids (features : list UsgsFeature.t) :
  Permutation
    (map UsgsFeature.id (filter has_magnitude features))
    (map EarthquakeEvent.id (normalize features))
  /\ (NoDup (map UsgsFeature.id features) ->
      NoDup (map EarthquakeEvent.id (normalize features))).
Proof.
  assert (Hperm : Permutation
    (map UsgsFeature.id (filter has_magnitude features))
    (map EarthquakeEvent.id (normalize features))).
  { rewrite <- map_filter_ids. apply Permutation_map, sort_perm. }
  split; [exact Hperm|].
  intros Hnd. apply (Permutation_NoDup Hperm).
  now apply filter_keeps_distinct.
Qed.

Lemma normalize_alert_levels_witness :
  Forall (fun e => EarthquakeEvent.alertLevel e <> watch)
    (normalize [Sample.flagged_9; Sample.unrated; Sample.tonga]).
Proof.
  apply Forall_forall. intros e He.
  exact (proj1 (normalize_alert_levels _ e He)).
Defined.

(** ** The figures of the dashboard *)

Lemma newer_first_trans (a b c : EarthquakeEvent.t) :
  newer_first a b -> newer_first b c -> newer_first a c.
Proof.
  unfold newer_first.
  destruct (JsDate.getTime (EarthquakeEvent.updated a)),
    (JsDate.getTime (EarthquakeEvent.updated b)),
    (JsDate.getTime (EarthquakeEvent.updated c)); try tauto. lia.
Qed.

Lemma newer_first_refl (a : EarthquakeEvent.t) : timed a -> newer_first a a.
Proof.
  unfold timed, newer_first.
  destruct (JsDate.getTime (EarthquakeEvent.updated a)); [lia | congruence].
Qed.

Lemma normalize_strongly_sorted (features : list UsgsFeature.t) :
  dated features -> StronglySorted newer_first (normalize features).
Proof.
  intros Hd. apply Sorted_StronglySorted.
  - exact newer_first_trans.
  - apply Sorted_LocallySorted_iff, normalize_newer_first, Hd.
Qed.

Lemma normalize_timed (features : list UsgsFeature.t) :
  dated features -> Forall timed (normalize features).
Proof.
  intros Hd. apply sort_timed, dated_timed, Hd.
Qed.

Lemma StronglySorted_filter {A : Type} (R : A -> A -> Prop) (p : A -> bool)
  (l : list A) :
  StronglySorted R l -> StronglySorted R (filter p l).
Proof.
  induction 1 as [|a l Hl IH Ha]; cbn; [constructor|].
  destruct (p a); [|exact IH].
  constructor; [exact IH|].
  rewrite Forall_forall in *. intros x Hx.
  apply filter_In in Hx as [Hx _]. now apply Ha.
Qed.

Lemma StronglySorted_app_inv {A : Type} (R : A -> A -> Prop)
  (l1 l2 : list A) :
  StronglySorted R (l1 ++ l2) ->
  forall a b, In a l1 -> In b l2 -> R a b.
Proof.
  induction l1 as [|x l1 IH]; cbn; intros H a b Ha Hb; [destruct Ha|].
  apply StronglySorted_inv in H as [H Hx].
  destruct Ha as [<- | Ha].
  - rewrite Forall_forall in Hx. apply Hx, in_or_app. now right.
  - now apply IH.
Qed.

Lemma normalize_length (features : list UsgsFeature.t) :
  List.length (normalize features)
  = List.length (filter has_magnitude features).
Proof.
  unfold normalize.
  rewrite <- (Permutation_length (sort_perm _ _)).
  rewrite <- (length_map EarthquakeEvent.id), map_filter_ids.
  apply length_map.
Qed.

(** X3: for a feed whose times of update are ones a date can hold, the
    event the dashboard calls the latest is an event of the normalized list
    that no event of the list is newer than; there is none exactly when no
    record of the feed has a magnitude. *)
Theorem latest_is_newest (now : JsDate.Time) (features : list UsgsFeature.t) :
  dated features ->
  let latest :=
    Stats.latestSignificant (dashboard_stats now (normalize features)) in
  (latest = None <-> filter has_magnitude features = [])
  /\ (forall e,
        latest = Some e ->
        In e (normalize features)
        /\ forall e', In e' (normalize features) -> newer_first e e').
Proof.
  intros Hd. cbn [dashboard_stats Stats.latestSignificant].
  pose proof (normalize_strongly_sorted features Hd) as Hs.
  pose proof (normalize_timed features Hd) as Ht.
  pose proof (normalize_length features) as Hlen.
  destruct (normalize features) as [|e0 l]; cbn [List.length nth_error] in *.
  - split.
    + split; [intros _ | reflexivity].
      now apply length_zero_iff_nil.
    + discriminate.
  - replace (0 <? S (List.length l))%nat with true by reflexivity. split.
    + split; [discriminate|]. intros H. now rewrite H in Hlen.
    + intros e [= <-]. split; [now left|].
      intros e' [<- | He'].
      * apply newer_first_refl. exact (Forall_inv Ht).
      * apply StronglySorted_inv in Hs as [_ Hs].
        rewrite Forall_forall in Hs. exact (Hs e' He').
Qed.

Lemma latest_is_newest_witness :
  dated [Sample.flagged_9; Sample.unrated; Sample.tonga]
  /\ forall e,
       Stats.latestSignificant
         (dashboard_stats Scenario.some_time
            (normalize [Sample.flagged_9; Sample.unrated; Sample.tonga]))
       = Some e ->
       In e (normalize [Sample.flagged_9; Sample.unrated; Sample.tonga])
       /\ forall e',
            In e' (normalize [Sample.flagged_9; Sample.unrated; Sample.tonga])
            -> newer_first e e'.
Proof.
  assert (Hd : dated [Sample.flagged_9; Sample.unrated; Sample.tonga]).
  { intros feature [<- | [<- | [<- | []]]] _; unfold in_range; cbn; lia. }
  split; [exact Hd|].
  exact (proj2 (latest_is_newest Scenario.some_time
                  [Sample.flagged_9; Sample.unrated; Sample.tonga] Hd)).
Defined.

Lemma In_firstn {A : Type} (n : nat) (l : list A) (x : A) :
  In x (firstn n l) -> In x l.
Proof.
  intros H. rewrite <- (firstn_skipn n l). apply in_or_app. now left.
Qed.

(** X4: for a feed whose times of update are ones a date can hold, the
    recent quakes the dashboard shows are at most ten events of the
    normalized list, each of magnitude at least 6, newest first; an event of
    magnitude at least 6 that is left out is no newer than any that is shown,
    and none is left out when there are at most ten. *)
Theorem recent_quakes_are_the_newest (now : JsDate.Time)
  (features : list UsgsFeature.t) :
  dated features ->
  let recent :=
    Stats.recentM6PlusQuakes (dashboard_stats now (normalize features)) in
  (List.length recent <= 10)%nat
  /\ (forall e, In e recent ->
        In e (normalize features)
        /\ geb (EarthquakeEvent.magnitude e) (of_Z 6) = true)
  /\ StronglySorted newer_first recent
  /\ (forall e, In e (normalize features) ->
        geb (EarthquakeEvent.magnitude e) (of_Z 6) = true ->
        In e recent
        \/ forall shown, In shown recent -> newer_first shown e)
  /\ ((List.length (filter is_m6_plus (normalize features)) <= 10)%nat ->
      recent = filter is_m6_plus (normalize features)).
Proof.
  intros Hd. cbn [dashboard_stats Stats.recentM6PlusQuakes]. unfold slice0.
  pose proof (StronglySorted_filter newer_first is_m6_plus _
                (normalize_strongly_sorted features Hd)) as Hs.
  set (l := filter is_m6_plus (normalize features)) in *.
  rewrite <- (firstn_skipn 10 l) in Hs.
  split; [|split; [|split; [|split]]].
  - rewrite length_firstn. apply Nat.le_min_l.
  - intros e He. apply In_firstn in He. subst l.
    apply filter_In in He. exact He.
  - clear - Hs. induction (firstn 10 l) as [|a l1 IH]; [constructor|].
    cbn in Hs. apply StronglySorted_inv in Hs as [Hs Ha].
    constructor; [now apply IH|].
    rewrite Forall_forall in *. intros x Hx. apply Ha, in_or_app. now left.
  - intros e He Hm.
    assert (Hin : In e l) by (subst l; apply filter_In; now split).
    rewrite <- (firstn_skipn 10 l) in Hin. apply in_app_or in Hin.
    destruct Hin as [Hin | Hin]; [now left | right].
    intros shown Hshown.
    exact (StronglySorted_app_inv newer_first _ _ Hs shown e Hshown Hin).
  - intros Hlen. now apply firstn_all2.
Qed.

Lemma recent_quakes_are_the_newest_witness :
  dated [Sample.flagged_9; Sample.unrated; Sample.tonga]
  /\ StronglySorted newer_first
       (Stats.recentM6PlusQuakes
          (dashboard_stats Scenario.some_time
             (normalize [Sample.flagged_9; Sample.unrated; Sample.tonga]))).
Proof.
  assert (Hd : dated [Sample.flagged_9; Sample.unrated; Sample.tonga]).
  { intros feature [<- | [<- | [<- | []]]] _; unfold in_range; cbn; lia. }
  split; [exact Hd|].
  exact (proj1 (proj2 (proj2 (recent_quakes_are_the_newest
                                Scenario.some_time
                                [Sample.flagged_9; Sample.unrated;
                                 Sample.tonga] Hd)))).
Defined.

Lemma filter_length_mono {A : Type} (p q : A -> bool) (l : list A) :
  (forall x, p x = true -> q x = true) ->
  (List.length (filter p l) <= List.length (filter q l))%nat.
Proof.
  intros H. induction l as [|a l IH]; cbn; [constructor|].
  destruct (p a) eqn:Ep.
  - rewrite (H a Ep). cbn. lia.
  - destruct (q a); cbn; lia.
Qed.

(** X5: the figures are ordered: the high priority alerts are among the
    active alerts, which are among the events; the quakes of the last 24
    hours are among those of magnitude at least 6; and the list of recent
    quakes has ten entries or all of those, whichever is less. *)
Theorem dashboard_figures_ordered (now : JsDate.Time)
  (events : list EarthquakeEvent.t) :
  let s := dashboard_stats now events in
  (Stats.highPriorityAlerts s <= Stats.activeAlerts s)%nat
  /\ (Stats.activeAlerts s <= List.length events)%nat
  /\ (Stats.twentyFourHourQuakes s
      <= List.length (filter is_m6_plus events))%nat
  /\ List.length (Stats.recentM6PlusQuakes s)
     = Nat.min 10 (List.length (filter is_m6_plus events))
  /\ (events = [] ->
      s = {| Stats.activeAlerts := 0; Stats.highPriorityAlerts := 0;
             Stats.twentyFourHourQuakes := 0;
             Stats.latestSignificant := None;
             Stats.recentM6PlusQuakes := [] |}).
Proof.
  cbn [dashboard_stats Stats.highPriorityAlerts Stats.activeAlerts
       Stats.twentyFourHourQuakes Stats.recentM6PlusQuakes].
  split; [|split; [|split; [|split]]].
  - apply filter_length_mono. intros e. unfold is_high_priority, is_active.
    intros ->. now rewrite orb_true_r.
  - apply filter_length_le.
  - apply filter_length_mono. intros e H.
    now apply andb_true_iff in H.
  - unfold slice0. apply length_firstn.
  - intros ->. reflexivity.
Qed.

Lemma active_two_ways (e : EarthquakeEvent.t) :
  negb (AlertLevel_eqb (EarthquakeEvent.alertLevel e) none)
  && negb (AlertLevel_eqb (EarthquakeEvent.alertLevel e) info)
  = is_active e.
Proof.
  unfold is_active. now destruct (EarthquakeEvent.alertLevel e).
Qed.

(** X6: the alerts that [TsunamiAlertsCard] lists are the events that the
    dashboard counts as active alerts, so the card has as many entries as the
    figure says. *)
Theorem alerts_card_matches_count (now : JsDate.Time)
  (events : list EarthquakeEvent.t) :
  TsunamiAlertsCard_activeAlerts events = filter is_active events
  /\ List.length (TsunamiAlertsCard_activeAlerts events)
     = Stats.activeAlerts (dashboard_stats now events).
Proof.
  assert (H : TsunamiAlertsCard_activeAlerts events = filter is_active events).
  { apply filter_ext. exact active_two_ways. }
  split; [exact H | now rewrite H].
Qed.

(** X7: on a normalized list, the active alerts are the events whose tsunami
    flag is set or whose magnitude is at least 7.5, and the high priority
    alerts are the events whose tsunami flag is set. *)
Theorem active_alerts_of_feed (now : JsDate.Time)
  (features : list UsgsFeature.t) :
  let s := dashboard_stats now (normalize features) in
  Stats.activeAlerts s
  = List.length
      (filter (fun e =>
                 EarthquakeEvent.isTsunamiWarning e
                 || geb (EarthquakeEvent.magnitude e) (of_ratio 75 10))
         (normalize features))
  /\ Stats.highPriorityAlerts s
     = List.length
         (filter EarthquakeEvent.isTsunamiWarning (normalize features)).
Proof.
  cbn [dashboard_stats Stats.highPriorityAlerts Stats.activeAlerts].
  split; f_equal; apply filter_ext_in; intros e He;
    apply In_normalize in He as (feature & _ & Hmap);
    destruct (map_feature_levels feature e Hmap)
      as (Hwatch & Hwarn & Hadv & _ & _);
    unfold is_active, is_high_priority.
  - destruct (EarthquakeEvent.isTsunamiWarning e) eqn:Et.
    + now rewrite (proj2 Hwarn eq_refl).
    + destruct (geb (EarthquakeEvent.magnitude e) (of_ratio 75 10)) eqn:Eg.
      * now rewrite (proj2 Hadv (conj eq_refl eq_refl)).
      * destruct (EarthquakeEvent.alertLevel e) eqn:El; try reflexivity.
        -- destruct (proj1 Hadv eq_refl). congruence.
        -- now destruct Hwatch.
        -- pose proof (proj1 Hwarn eq_refl). congruence.
  - destruct (EarthquakeEvent.isTsunamiWarning e) eqn:Et.
    + now rewrite (proj2 Hwarn eq_refl).
    + destruct (EarthquakeEvent.alertLevel e) eqn:El; try reflexivity.
      pose proof (proj1 Hwarn eq_refl). congruence.
Qed.

(** ** The alert effect, continued *)

Lemma add_NoDup (s : StringSet.t) (x : string) :
  NoDup s -> NoDup (StringSet.add s x).
Proof.
  intros H. unfold StringSet.add.
  destruct (StringSet.has s x) eqn:E; [exact H|].
  apply NoDup_app; trivial.
  - constructor; [intros [] | constructor].
  - intros a Ha [Hax | []]. subst a. apply has_In in Ha. congruence.
Qed.

Lemma NoDup_app_disjoint {A : Type} (l1 l2 : list A) :
  NoDup (l1 ++ l2) -> forall a, In a l1 -> ~ In a l2.
Proof.
  induction l1 as [|x l1 IH]; cbn; intros H a Ha Hb; [destruct Ha|].
  inversion H as [|? ? Hnotin Hnd]; subst.
  destruct Ha as [<- | Ha].
  - apply Hnotin, in_or_app. now right.
  - exact (IH Hnd a Ha Hb).
Qed.

Lemma of_array_NoDup (l : list string) : NoDup (StringSet.of_array l).
Proof.
  unfold StringSet.of_array.
  assert (H : forall acc, NoDup acc -> NoDup (fold_left StringSet.add l acc)).
  { induction l as [|x l IH]; intros acc Hacc; cbn; [exact Hacc|].
    apply IH. now apply add_NoDup. }
  apply H. constructor.
Qed.

Lemma has_of_array (l : list string) (x : string) :
  StringSet.has (StringSet.of_array l) x = StringSet.has l x.
Proof.
  destruct (StringSet.has l x) eqn:E.
  - apply has_In, In_of_array, has_In, E.
  - destruct (StringSet.has (StringSet.of_array l) x) eqn:E'; trivial.
    apply (proj1 (has_In _ _)) in E'. apply (proj1 (In_of_array _ _)) in E'.
    apply (proj2 (has_In _ _)) in E'. congruence.
Qed.

Section LoopFacts2.

Variable host : Host.
Variable alertSettings : AlertSettings.t.

Local Open Scope list_scope.

Lemma visit_NoDup (st : Loop) (e : EarthquakeEvent.t) :
  NoDup (newProcessed st) ->
  NoDup (newProcessed (visit host alertSettings st e)).
Proof.
  intros H. unfold visit.
  destruct (StringSet.has _ _); [exact H|].
  destruct (geb _ _); [|exact H].
  cbn. now apply add_NoDup.
Qed.

Lemma forEach_NoDup (events : list EarthquakeEvent.t) (st : Loop) :
  NoDup (newProcessed st) ->
  NoDup (newProcessed (forEach host alertSettings events st)).
Proof.
  unfold forEach. revert st.
  induction events as [|e events IH]; intros st H; cbn; [exact H|].
  apply IH. now apply visit_NoDup.
Qed.

(** With ids unique in the list, an event gets an alert exactly when its id
    is not in the set at the start and it meets the threshold. *)
Lemma forEach_filter (events : list EarthquakeEvent.t) (st : Loop) :
  NoDup (map EarthquakeEvent.id events) ->
  map GeneratedAlert.event (newAlerts (forEach host alertSettings events st))
  = map GeneratedAlert.event (newAlerts st)
    ++ filter (due alertSettings (newProcessed st)) events.
Proof.
  unfold forEach. revert st.
  induction events as [|e events IH]; intros st Hnd; cbn [fold_left filter].
  - now rewrite app_nil_r.
  - inversion Hnd as [|? ? Hnotin Hnd']; subst.
    rewrite (IH _ Hnd'). unfold visit, due at 2.
    destruct (StringSet.has (newProcessed st) (EarthquakeEvent.id e)) eqn:Eh;
      cbn [negb andb]; [reflexivity|].
    destruct (geb (EarthquakeEvent.magnitude e) _) eqn:Eg; [|reflexivity].
    cbn [newAlerts newProcessed JsDate.now].
    rewrite map_app, <- app_assoc. cbn [map app GeneratedAlert.event].
    do 2 f_equal. apply filter_ext_in. intros e' He'. unfold due. f_equal.
    f_equal. unfold StringSet.add. rewrite Eh.
    unfold StringSet.has. rewrite existsb_app. cbn.
    destruct (String.eqb_spec (EarthquakeEvent.id e') (EarthquakeEvent.id e))
      as [E | _]; [|now rewrite !orb_false_r].
    exfalso. apply Hnotin. rewrite <- E. now apply in_map.
Qed.

End LoopFacts2.

Lemma scan_alerts (host : Host) (events : list EarthquakeEvent.t)
  (alertSettings : AlertSettings.t) (processed : list string)
  (c : JsDate.Clock) :
  idle alertSettings events = false ->
  fst (evaluate host events alertSettings processed c)
  = newAlerts (scan host events alertSettings processed c).
Proof.
  intros Hi. unfold evaluate. rewrite Hi.
  destruct (newAlerts (scan host events alertSettings processed c));
    reflexivity.
Qed.

(** The new alerts are about ids that are pairwise distinct and not yet
    processed. *)
Lemma evaluate_fresh (host : Host) (events : list EarthquakeEvent.t)
  (alertSettings : AlertSettings.t) (processed : list string)
  (c : JsDate.Clock) :
  NoDup (event_ids (fst (evaluate host events alertSettings processed c)))
  /\ (forall x,
        In x (event_ids
                (fst (evaluate host events alertSettings processed c))) ->
        ~ In x processed).
Proof.
  destruct (idle alertSettings events) eqn:Hi.
  { unfold evaluate. rewrite Hi. cbn. split; [constructor | tauto]. }
  rewrite scan_alerts by exact Hi. unfold scan.
  pose proof (forEach_NoDup host alertSettings events
                {| newProcessed := StringSet.of_array processed;
                   newAlerts := []; clock := c |}
                (of_array_NoDup processed)) as Hnd.
  destruct (forEach_spec host alertSettings events
              {| newProcessed := StringSet.of_array processed;
                 newAlerts := []; clock := c |})
    as (added & Ha & Hp & _).
  cbn [newAlerts newProcessed app] in Ha, Hp. rewrite Ha. rewrite Hp in Hnd.
  split; [exact (NoDup_app_remove_l _ _ Hnd)|].
  intros x Hx Hin.
  apply (NoDup_app_disjoint _ _ Hnd x); [now apply In_of_array | exact Hx].
Qed.

(** X8: [evaluate] returns a new alert exactly when notifications are on,
    there is a recipient, and some event of the list meets the threshold with
    an id that is not processed yet; in particular it returns none when
    notifications are off, when there is no recipient and when the list is
    empty. *)
Theorem new_alerts_iff (host : Host) (events : list EarthquakeEvent.t)
  (alertSettings : AlertSettings.t) (processed : list string)
  (c : JsDate.Clock) :
  fst (evaluate host events alertSettings processed c) <> []
  <-> AlertSettings.notificationsEnabled alertSettings = true
      /\ AlertSettings.recipients alertSettings <> []
      /\ exists e,
           In e events
           /\ geb (EarthquakeEvent.magnitude e)
                  (AlertSettings.minMagnitude alertSettings) = true
           /\ ~ In (EarthquakeEvent.id e) processed.
Proof.
  pose proof (evaluate_fresh host events alertSettings processed c)
    as [_ Hfresh].
  destruct (evaluate_spec host events alertSettings processed c)
    as (alerts & Hg & _ & Hin & [[-> E] | (Hne & Hidle & E)]);
    rewrite E in *; cbn [fst] in *.
  - split; [congruence|]. intros (Hon & Hrec & e & He & Hge & Hnew).
    exfalso. apply Hnew.
    specialize (Hin e (idle_false _ _ e Hon Hrec He) He Hge).
    cbn in Hin. now rewrite app_nil_r in Hin.
  - split; [intros _ | intros _; exact Hne].
    unfold idle in Hidle. apply orb_false_iff in Hidle as [Hidle _].
    apply orb_false_iff in Hidle as [Hon Hrec].
    apply negb_false_iff in Hon. split; [exact Hon|]. split.
    + intros Hnil. now rewrite Hnil in Hrec.
    + destruct alerts as [|a alerts]; [congruence|].
      inversion Hg as [|? ? (Hev & Hge & _) _]; subst.
      exists (GeneratedAlert.event a). split; [exact Hev|].
      split; [exact Hge|]. apply Hfresh. now left.
Qed.

(** X9: in one run no two new alerts are about the same event id, whatever
    the list holds, and none is about an id that was processed before; the
    processed ids stay free of duplicates. *)
Theorem at_most_one_alert_per_id (host : Host)
  (events : list EarthquakeEvent.t) (alertSettings : AlertSettings.t)
  (processed : list string) (c : JsDate.Clock) :
  let r := evaluate host events alertSettings processed c in
  NoDup (event_ids (fst r))
  /\ (forall a, In a (fst r) ->
        ~ In (EarthquakeEvent.id (GeneratedAlert.event a)) processed)
  /\ (NoDup processed -> NoDup (snd r)).
Proof.
  intros r. subst r.
  destruct (evaluate_fresh host events alertSettings processed c)
    as [Hnd Hfresh].
  split; [exact Hnd|]. split.
  - intros a Ha. apply Hfresh. unfold event_ids.
    exact (in_map (fun a => EarthquakeEvent.id (GeneratedAlert.event a))
             _ a Ha).
  - intros Hp.
    destruct (evaluate_spec host events alertSettings processed c)
      as (alerts & _ & _ & _ & [[-> E] | (_ & _ & E)]);
      rewrite E in *; cbn [fst snd] in *; [exact Hp|].
    apply NoDup_app; [apply of_array_NoDup | exact Hnd |].
    intros x Hx Hin. apply (proj1 (In_of_array _ _)) in Hx.
    exact (Hfresh x Hin Hx).
Qed.

(** X10: when ids are unique in the event list, the new alerts are about the
    events that are due (id not processed, threshold met), all of them and in
    the order of the list. *)
Theorem new_alerts_are_the_due_events (host : Host)
  (events : list EarthquakeEvent.t) (alertSettings : AlertSettings.t)
  (processed : list string) (c : JsDate.Clock) :
  NoDup (map EarthquakeEvent.id events) ->
  map GeneratedAlert.event
    (fst (evaluate host events alertSettings processed c))
  = if idle alertSettings events then []
    else filter (due alertSettings processed) events.
Proof.
  intros Hnd. destruct (idle alertSettings events) eqn:Hi.
  - unfold evaluate. now rewrite Hi.
  - rewrite scan_alerts by exact Hi. unfold scan.
    rewrite forEach_filter by exact Hnd. cbn [newAlerts newProcessed map app].
    apply filter_ext. intros e. unfold due. now rewrite has_of_array.
Qed.

Lemma NoDup_firstn {A : Type} (n : nat) (l : list A) :
  NoDup l -> NoDup (firstn n l).
Proof.
  intros H. rewrite <- (firstn_skipn n l) in H.
  exact (NoDup_app_remove_r _ _ H).
Qed.

Lemma alertEffect_log_inv (host : Host) (events : list EarthquakeEvent.t)
  (alertSettings : AlertSettings.t) (c : JsDate.Clock) (st : Store) :
  log_inv st -> log_inv (alertEffect host events alertSettings c st).
Proof.
  intros [Hnd Hincl]. rewrite alertEffect_evaluate.
  destruct (evaluate_fresh host events alertSettings (processedEvents st) c)
    as [Hids Hfresh].
  destruct (evaluate_spec host events alertSettings (processedEvents st) c)
    as (alerts & _ & _ & _ & [[-> E] | (Hne & _ & E)]);
    rewrite E in *; cbn [fst] in *; [now split|].
  destruct alerts as [|a alerts]; [congruence|].
  unfold log_inv. cbn [generatedAlerts processedEvents].
  unfold event_ids in *. unfold slice0. rewrite <- firstn_map, map_app. split.
  - apply NoDup_firstn. apply NoDup_app; trivial.
    intros x Hx Hlog. exact (Hfresh x Hx (Hincl x Hlog)).
  - intros x Hx. apply In_firstn in Hx. apply in_app_or in Hx.
    apply in_or_app. destruct Hx as [Hx | Hx]; [now right | left].
    apply (proj2 (In_of_array _ _)). now apply Hincl.
Qed.

(** X11: over any sequence of runs of the effect, from a log that has at most
    one alert per event id and only alerts about processed ids (the empty
    store, for one), the log never comes to hold two alerts about the same
    event id, and the ids it mentions are all processed. *)
Theorem log_has_one_alert_per_id (host : Host) (calls : list Call)
  (st : Store) :
  log_inv st -> log_inv (run_effects host calls st).
Proof.
  revert st. induction calls as [|[[events alertSettings] c] calls IH];
    intros st H; cbn [run_effects]; [exact H|].
  apply IH. now apply alertEffect_log_inv.
Qed.

(** ** The recipients *)

Lemma includes_In (arr : list string) (x : string) :
  includes arr x = true <-> In x arr.
Proof. exact (has_In arr x). Qed.

Lemma filter_neq_notin (l : list string) (r : string) :
  ~ In r l -> filter (fun x => negb (String.eqb x r)) l = l.
Proof.
  induction l as [|a l IH]; cbn; [reflexivity|].
  intros H. destruct (String.eqb_spec a r) as [-> | _]; cbn.
  - exfalso. apply H. now left.
  - f_equal. apply IH. tauto.
Qed.

Lemma In_filter_neq (l : list string) (r x : string) :
  In x (filter (fun y => negb (String.eqb y r)) l) <-> In x l /\ x <> r.
Proof.
  rewrite filter_In. split; intros [H1 H2]; split; trivial.
  - intros ->. now rewrite String.eqb_refl in H2.
  - now destruct (String.eqb_spec x r).
Qed.

Lemma recipient_step_ok (card : EmailSettingsCard.t) (a : RecipientAction) :
  recipients_ok card -> recipients_ok (recipient_step card a).
Proof.
  intros [Hnd Hne]. destruct a as [text | | r]; cbn [recipient_step].
  - now split.
  - unfold handleAddRecipient.
    destruct (String.eqb_spec (EmailSettingsCard.newRecipient card) "")
      as [E | E]; cbn [negb andb]; [now split|].
    destruct (includes _ _) eqn:Ei; cbn [negb]; [now split|].
    assert (Hnotin : ~ In (EmailSettingsCard.newRecipient card)
                       (AlertSettings.recipients
                          (EmailSettingsCard.settings card))).
    { intros Hin. apply includes_In in Hin. congruence. }
    unfold recipients_ok. cbn. split.
    + apply NoDup_app; trivial.
      * constructor; [intros [] | constructor].
      * intros x Hx [<- | []]. contradiction.
    + intros Hin. apply in_app_or in Hin as [Hin | [Hin | []]];
        [contradiction | congruence].
  - unfold recipients_ok. cbn. split.
    + now apply NoDup_filter.
    + intros Hin. apply In_filter_neq in Hin. tauto.
Qed.

(** X12: whatever a user types, submits and removes, a list of recipients
    without duplicates and without an empty address stays so. *)
Theorem recipients_stay_ok (actions : list RecipientAction)
  (card : EmailSettingsCard.t) :
  recipients_ok card ->
  recipients_ok (fold_left recipient_step actions card).
Proof.
  revert card. induction actions as [|a actions IH]; intros card H; cbn.
  - exact H.
  - apply IH. now apply recipient_step_ok.
Qed.

(** X13: submitting an address that is not empty and not yet in the list
    puts it at the end of the list and clears the input; removing it again
    gives the list back. Submitting an empty or a known address changes
    nothing. *)
Theorem add_then_remove_recipient (card : EmailSettingsCard.t) :
  let r := EmailSettingsCard.newRecipient card in
  (r <> "" /\ ~ In r (card_recipients card) ->
   card_recipients (handleAddRecipient card)
   = (card_recipients card ++ [r])%list
   /\ EmailSettingsCard.newRecipient (handleAddRecipient card) = ""
   /\ card_recipients (handleRemoveRecipient r (handleAddRecipient card))
      = card_recipients card)
  /\ (r = "" \/ In r (card_recipients card) ->
      handleAddRecipient card = card).
Proof.
  cbn zeta. unfold handleAddRecipient, card_recipients. split.
  - intros [Hne Hnotin].
    destruct (String.eqb_spec (EmailSettingsCard.newRecipient card) "");
      [contradiction|].
    destruct (includes _ _) eqn:Ei.
    { apply includes_In in Ei. contradiction. }
    cbn. split; [reflexivity|]. split; [reflexivity|].
    rewrite filter_app, filter_neq_notin by exact Hnotin.
    cbn. rewrite String.eqb_refl. cbn. apply app_nil_r.
  - intros [-> | Hin].
    + reflexivity.
    + apply includes_In in Hin. rewrite Hin.
      now rewrite andb_false_r.
Qed.

(** X14: removing a recipient takes every occurrence of it out of the list
    and nothing else, keeps the other settings, and changes nothing when the
    address is not in the list; once the last recipient is removed, the alert
    effect run with these settings generates nothing. *)
Theorem remove_recipient (r : string) (card : EmailSettingsCard.t) :
  let card' := handleRemoveRecipient r card in
  (forall x, In x (card_recipients card')
             <-> In x (card_recipients card) /\ x <> r)
  /\ AlertSettings.minMagnitude (EmailSettingsCard.settings card')
     = AlertSettings.minMagnitude (EmailSettingsCard.settings card)
  /\ AlertSettings.emailTemplate (EmailSettingsCard.settings card')
     = AlertSettings.emailTemplate (EmailSettingsCard.settings card)
  /\ (~ In r (card_recipients card) ->
      card_recipients card' = card_recipients card)
  /\ ((forall x, In x (card_recipients card) -> x = r) ->
      forall host events processed c,
        evaluate host events (EmailSettingsCard.settings card') processed c
        = ([], processed)).
Proof.
  cbn zeta. unfold handleRemoveRecipient, card_recipients. cbn.
  split; [intros x; apply In_filter_neq|].
  split; [reflexivity|]. split; [reflexivity|].
  split; [apply filter_neq_notin|].
  intros Hall host events processed c. unfold evaluate, idle. cbn.
  replace (filter _ _) with (@nil string).
  - cbn. now rewrite orb_true_r.
  - symmetry.
    induction (AlertSettings.recipients (EmailSettingsCard.settings card))
      as [|a l IH]; [reflexivity|].
    cbn. rewrite (Hall a (or_introl eq_refl)), String.eqb_refl. cbn.
    apply IH. intros x Hx. apply Hall. now right.
Qed.

(** ** The map *)

(** X15: the map has no marker while the measured width is zero (of either
    sign); otherwise it has one marker per event, in the order of the
    events. *)
Theorem map_points_one_per_event (width height : number)
  (events : list EarthquakeEvent.t) :
  (forall sign, map_points (S754_zero sign) height events = [])
  /\ map Point.event (map_points width height events)
     = if js_strict_eq width (of_Z 0) then [] else events.
Proof.
  split.
  - intros sign. unfold map_points. now destruct sign.
  - unfold map_points. destruct (js_strict_eq width (of_Z 0));
      [reflexivity|].
    rewrite map_map. rewrite <- (map_id events) at 2.
    apply map_ext. intros e.
    now destruct (convertCoordsToPixels _ _ _ _).
Qed.

Lemma Math_max_lower (a b : number) :
  SFleb a a = true ->
  Math_max a b = S754_nan \/ geb (Math_max a b) a = true.
Proof.
  intros Ha. unfold geb.
  destruct a as [sa|sa| |sa ma ea], b as [sb|sb| |sb mb eb];
    try (now left); right; unfold Math_max;
    try (destruct (SFltb _ _) eqn:E; [|exact Ha];
         unfold SFltb in E; unfold SFleb;
         destruct (SFcompare _ _) as [[]|]; try discriminate; reflexivity).
  now destruct sa, sb.
Qed.

(** X16: the size of a marker is never below 5, unless it is not a number
    at all. *)
Theorem marker_size_at_least_5 (magnitude : number) :
  marker_size magnitude = S754_nan
  \/ geb (marker_size magnitude) (of_Z 5) = true.
Proof.
  unfold marker_size. apply Math_max_lower. reflexivity.
Qed.

(** X17: on the normalized list, for an event without the tsunami flag the
    colour of its marker tells its alert level: red for [advisory], orange
    for [info], yellow for [none]; and the marker is red exactly when the
    badge of the magnitude is the red one. *)
Theorem marker_colour_tells_level (features : list UsgsFeature.t)
  (e : EarthquakeEvent.t) :
  In e (normalize features) ->
  EarthquakeEvent.isTsunamiWarning e = false ->
  let colour := marker_color (EarthquakeEvent.magnitude e) in
  (EarthquakeEvent.alertLevel e = advisory <-> colour = "#f85149")
  /\ (EarthquakeEvent.alertLevel e = info <-> colour = "#f5a623")
  /\ (EarthquakeEvent.alertLevel e = none <-> colour = "#FFD54F")
  /\ (colour = "#f85149"
      <-> getMagnitudeClass (EarthquakeEvent.magnitude e)
          = "bg-danger/20 text-danger border-danger/50").
Proof.
  intros He Hflag. apply In_normalize in He as (feature & _ & Hmap).
  destruct (map_feature_levels feature e Hmap)
    as (Hwatch & Hwarn & Hadv & Hinfo & Hnone).
  cbn zeta. unfold marker_color, getMagnitudeClass.
  destruct (geb (EarthquakeEvent.magnitude e) (of_ratio 75 10)) eqn:E75.
  - rewrite (proj2 Hadv (conj Hflag eq_refl)).
    repeat split; intros; trivial; discriminate.
  - assert (Hna : EarthquakeEvent.alertLevel e <> advisory).
    { intros H. destruct (proj1 Hadv H). congruence. }
    assert (Hnw : EarthquakeEvent.alertLevel e <> warning).
    { intros H. pose proof (proj1 Hwarn H). congruence. }
    destruct (geb (EarthquakeEvent.magnitude e) (of_ratio 65 10)) eqn:E65.
    + destruct (EarthquakeEvent.alertLevel e) eqn:El;
        try contradiction;
        [destruct (Hnone eq_refl); congruence|].
      destruct (geb (EarthquakeEvent.magnitude e) (of_Z 6));
        repeat split; intros; trivial; discriminate.
    + destruct (EarthquakeEvent.alertLevel e) eqn:El;
        try contradiction;
        [|pose proof (Hinfo eq_refl); congruence].
      destruct (geb (EarthquakeEvent.magnitude e) (of_Z 6));
        repeat split; intros; trivial; discriminate.
Qed.

(** ** The printed event id *)

Lemma split_on_not_nil (sep : ascii) (s : string) : split_on sep s <> [].
Proof.
  destruct s as [|a s]; cbn; [discriminate|].
  destruct (Ascii.eqb a sep); [discriminate|].
  destruct (split_on sep s); discriminate.
Qed.

(** A piece has no separator, and only characters of the string. *)
Lemma split_on_pieces (sep : ascii) (s : string) (piece : string) :
  In piece (split_on sep s) ->
  occurs sep piece = false
  /\ forall c, occurs c piece = true -> occurs c s = true.
Proof.
  revert piece. induction s as [|a s IH]; cbn [split_on]; intros piece Hin.
  - destruct Hin as [<- | []]. split; [reflexivity | trivial].
  - destruct (Ascii.eqb a sep) eqn:E.
    + destruct Hin as [<- | Hin]; [split; [reflexivity | discriminate]|].
      destruct (IH piece Hin) as [H1 H2]. split; [exact H1|].
      intros c Hc. cbn. rewrite (H2 c Hc). apply orb_true_r.
    + destruct (split_on sep s) as [|p pieces].
      * destruct Hin as [<- | []]. cbn. rewrite E. split; [reflexivity|].
        intros c Hc. rewrite orb_false_r in Hc. now rewrite Hc.
      * destruct Hin as [<- | Hin].
        -- destruct (IH p (or_introl eq_refl)) as [H1 H2].
           cbn. rewrite E, H1. split; [reflexivity|].
           intros c Hc. apply orb_true_iff in Hc as [Hc | Hc].
           ++ now rewrite Hc.
           ++ rewrite (H2 c Hc). apply orb_true_r.
        -- destruct (IH piece (or_intror Hin)) as [H1 H2].
           split; [exact H1|].
           intros c Hc. cbn. rewrite (H2 c Hc). apply orb_true_r.
Qed.

Lemma split_on_absent (sep : ascii) (s : string) :
  occurs sep s = false -> split_on sep s = [s].
Proof.
  induction s as [|a s IH]; cbn; [reflexivity|].
  intros H. apply orb_false_iff in H as [E H].
  rewrite E, (IH H). reflexivity.
Qed.

Lemma split_on_app (sep : ascii) (p r : string) :
  split_on sep (p ++ String sep r)
  = (split_on sep p ++ split_on sep r)%list.
Proof.
  induction p as [|a p IH]; cbn.
  - now rewrite Ascii.eqb_refl.
  - rewrite IH. destruct (Ascii.eqb a sep); [reflexivity|].
    pose proof (split_on_not_nil sep p) as Hne.
    destruct (split_on sep p) as [|piece pieces]; [congruence|].
    reflexivity.
Qed.

Lemma array_pop_last (l : list string) (x : string) :
  array_pop (l ++ [x]) = Some x.
Proof.
  unfold array_pop. rewrite length_app. cbn.
  replace (List.length l + 1 - 1)%nat with (List.length l) by lia.
  rewrite nth_error_app2 by lia. now rewrite Nat.sub_diag.
Qed.

Lemma array_pop_In (l : list string) :
  l <> [] -> exists x, array_pop l = Some x /\ In x l.
Proof.
  intros H. destruct (exists_last H) as (l' & x & ->).
  exists x. split; [apply array_pop_last|].
  apply in_or_app. right. now left.
Qed.

Lemma array_pop_app (l1 l2 : list string) :
  l2 <> [] -> array_pop (l1 ++ l2) = array_pop l2.
Proof.
  intros H. destruct (exists_last H) as (l' & x & ->).
  now rewrite app_assoc, !array_pop_last.
Qed.

Lemma displayed_plain (s : string) :
  s <> "" -> occurs ":" s = false -> occurs "," s = false ->
  displayed_event_id s = s.
Proof.
  intros Hne Hc Hk. unfold displayed_event_id.
  rewrite (split_on_absent ":" s Hc).
  change (array_pop [s]) with (Some s). cbn iota.
  rewrite (split_on_absent "," s Hk). cbn. now destruct s.
Qed.

Lemma displayed_clean (id : string) :
  displayed_event_id id <> ""
  /\ occurs ":" (displayed_event_id id) = false
  /\ occurs "," (displayed_event_id id) = false.
Proof.
  unfold displayed_event_id.
  destruct (array_pop_In (split_on ":" id) (split_on_not_nil ":" id))
    as (last & -> & Hlast).
  destruct (split_on_pieces ":" id last Hlast) as [Hcolon _].
  pose proof (split_on_pieces "," last) as Hq.
  destruct (split_on "," last) as [|first rest]; cbn [nth_error].
  - repeat split; discriminate.
  - destruct (Hq first (or_introl eq_refl)) as [Hcomma Hsub].
    destruct first as [|a first]; [repeat split; discriminate|].
    split; [discriminate|]. split; [|exact Hcomma].
    destruct (occurs ":" (String a first)) eqn:E; [|reflexivity].
    rewrite (Hsub _ E) in Hcolon. discriminate.
Qed.

(** X18: the event id that the card prints is never empty and has neither a
    colon nor a comma; an id with neither is printed as it is, and of an id
    that ends in a colon followed by such a text, that text is printed; an
    empty id is printed as [N/A]. *)
Theorem displayed_event_id_spec (id : string) :
  displayed_event_id id <> ""
  /\ occurs ":" (displayed_event_id id) = false
  /\ occurs "," (displayed_event_id id) = false
  /\ (id <> "" -> occurs ":" id = false -> occurs "," id = false ->
      displayed_event_id id = id)
  /\ (forall prefix rest,
        id = prefix ++ String ":" rest ->
        rest <> "" -> occurs ":" rest = false -> occurs "," rest = false ->
        displayed_event_id id = rest)
  /\ displayed_event_id "" = "N/A".
Proof.
  destruct (displayed_clean id) as (H1 & H2 & H3).
  split; [exact H1|]. split; [exact H2|]. split; [exact H3|].
  split; [apply displayed_plain|]. split; [|reflexivity].
  intros prefix rest -> Hne Hc Hk.
  rewrite <- (displayed_plain rest Hne Hc Hk) at 2.
  unfold displayed_event_id.
  now rewrite split_on_app, array_pop_app by apply split_on_not_nil.
Qed.

(** ** Loading the feed *)

Lemma handleRefresh_idle (response : Fetch.Response) (st : Dashboard.t) :
  Dashboard.isRefreshing st = false ->
  handleRefresh response st
  = {| Dashboard.events :=
         match resolved response with
         | Some data => data
         | None => Dashboard.events st
         end;
       Dashboard.isInitialLoad := Dashboard.isInitialLoad st;
       Dashboard.isRefreshing := false;
       Dashboard.error :=
         match resolved response with
         | Some _ => None
         | None => Some "Failed to fetch data. Please try again later."
         end |}.
Proof.
  intros H. unfold handleRefresh, loadData, resolved. rewrite H.
  destruct (fetchTsunamiData response); reflexivity.
Qed.

Lemma mapElement_None (feature : Fetch.Element) :
  mapElement feature = None <-> unreadable feature = true.
Proof.
  destruct feature as [|id [props|] [g|]]; cbn;
    try destruct (UsgsFeature.mag props); split; congruence.
Qed.

Lemma map_throwing_None {A B : Type} (f : A -> option B) (l : list A) :
  map_throwing f l = None <-> exists x, In x l /\ f x = None.
Proof.
  induction l as [|a l IH]; cbn.
  - split; [discriminate | intros (x & [] & _)].
  - destruct (f a) as [y|] eqn:E.
    + destruct (map_throwing f l) as [ys|].
      * split; [discriminate|]. intros (x & [<- | Hx] & Hf); [congruence|].
        assert (H : Some ys = None) by (apply (proj2 IH); eauto).
        discriminate.
      * split; [|reflexivity]. intros _.
        destruct (proj1 IH eq_refl) as (x & Hx & Hf). eauto.
    + split; [eauto | reflexivity].
Qed.

(** The elements that are read give the events of the records among them:
    an element without a magnitude is dropped, whether or not it has a
    [geometry]. *)
Lemma map_throwing_records (features : list Fetch.Element)
  (mapped : list (option EarthquakeEvent.t)) :
  map_throwing mapElement features = Some mapped ->
  map_filter_non_null (fun x => x) mapped
  = map_filter_non_null mapUsgsFeatureToEarthquakeEvent (records features).
Proof.
  revert mapped. induction features as [|x l IH]; cbn [map_throwing];
    intros mapped H.
  - injection H as <-. reflexivity.
  - destruct (mapElement x) as [y|] eqn:E; [|discriminate].
    destruct (map_throwing mapElement l) as [ys|]; [|discriminate].
    injection H as <-. specialize (IH ys eq_refl).
    destruct x as [|id [props|] [g|]]; cbn in E; try discriminate.
    + cbn [records map_filter_non_null].
      destruct (UsgsFeature.mag props) eqn:Em.
      * injection E as <-. now rewrite IH.
      * injection E as <-.
        rewrite map_feature_None by exact Em. exact IH.
    + destruct (UsgsFeature.mag props); [discriminate|].
      injection E as <-. exact IH.
Qed.

Lemma events_of_spec (features : list Fetch.Element) :
  events_of features
  = if existsb unreadable features then None
    else Some (normalize (records features)).
Proof.
  unfold events_of.
  destruct (map_throwing mapElement features) as [mapped|] eqn:E.
  - rewrite (map_throwing_records _ _ E).
    destruct (existsb unreadable features) eqn:Ex; [|reflexivity].
    apply existsb_exists in Ex as (x & Hx & Hu).
    apply mapElement_None in Hu.
    assert (H : map_throwing mapElement features = None)
      by (apply map_throwing_None; eauto).
    congruence.
  - apply map_throwing_None in E as (x & Hx & Hf).
    apply mapElement_None in Hf.
    replace (existsb unreadable features) with true; [reflexivity|].
    symmetry. apply existsb_exists. eauto.
Qed.

Lemma records_typed (features : list UsgsFeature.t) :
  records (map Fetch.typed features) = features
  /\ existsb unreadable (map Fetch.typed features) = false.
Proof.
  induction features as [|[id props g] l [IH1 IH2]]; [now split|].
  cbn. now rewrite IH1, IH2.
Qed.


Lemma resolved_sorted (response : Fetch.Response)
  (data : list EarthquakeEvent.t) :
  dated_response response ->
  resolved response = Some data -> LocallySorted newer_first data.
Proof.
  unfold resolved, fetchTsunamiData, dated_response.
  destruct response as [|[] statusText [| | |features]];
    try (intros _ [= <-]; constructor); try discriminate.
  rewrite events_of_spec.
  destruct (existsb unreadable features); [discriminate|].
  intros Hd [= <-]. now apply normalize_newer_first.
Qed.

Lemma refreshes_spec (later : list Fetch.Response) (st : Dashboard.t) :
  Dashboard.isRefreshing st = false ->
  let st' :=
    fold_left (fun st response => handleRefresh response st) later st in
  Dashboard.events st' = latest_data later (Dashboard.events st)
  /\ Dashboard.isRefreshing st' = false
  /\ Dashboard.isInitialLoad st' = Dashboard.isInitialLoad st
  /\ (later <> [] ->
      (Dashboard.error st' = None
       <-> resolved (last later Fetch.NetworkError) <> None)).
Proof.
  revert st. induction later as [|r later IH]; intros st H; cbn zeta.
  - cbn. split; [reflexivity|]. split; [exact H|]. split; [reflexivity|].
    intros Hne. now destruct Hne.
  - cbn [fold_left latest_data]. rewrite (handleRefresh_idle r st H).
    set (st1 := {| Dashboard.events := _ |}).
    destruct (IH st1 eq_refl) as (He & Hr & Hi & Herr).
    split; [exact He|]. split; [exact Hr|]. split; [exact Hi|].
    intros _. destruct later as [|r' later'].
    + cbn. destruct (resolved r); split; congruence.
    + change (last (r :: r' :: later') Fetch.NetworkError)
        with (last (r' :: later') Fetch.NetworkError).
      apply Herr. discriminate.
Qed.


(** ** Reading a date back *)

Module IsoFacts.
Import IsoFormat.

Lemma take_app (a b : string) :
  take (String.length a) (a ++ b) = Some (a, b).
Proof.
  induction a as [|c a IH]; cbn; [reflexivity|]. now rewrite IH.
Qed.

Lemma string_length_app (a b : string) :
  String.length (a ++ b) = (String.length a + String.length b)%nat.
Proof.
  induction a as [|c a IH]; cbn; [reflexivity|]. now rewrite IH.
Qed.

Lemma zeros_uint (k : nat) (u : Decimal.uint) :
  JsDate.zeros k ++ NilEmpty.string_of_uint u
  = NilEmpty.string_of_uint (Nat.iter k Decimal.D0 u).
Proof.
  induction k as [|k IH]; cbn; [reflexivity|]. now rewrite IH.
Qed.

Lemma length_uint (u : Decimal.uint) :
  String.length (NilEmpty.string_of_uint u) = Decimal.nb_digits u.
Proof.
  induction u; cbn; congruence.
Qed.

Lemma length_zeros (k : nat) : String.length (JsDate.zeros k) = k.
Proof.
  induction k; cbn; congruence.
Qed.

Lemma to_uint_not_nil (n : N) : N.to_uint n <> Decimal.Nil.
Proof.
  destruct n as [|p]; [discriminate|]. apply DecimalPos.Unsigned.to_uint_nonnil.
Qed.

Lemma digits_uint (n : Z) :
  digits n = NilEmpty.string_of_uint (N.to_uint (Z.to_N n)).
Proof.
  unfold digits, NilZero.string_of_uint.
  pose proof (to_uint_not_nil (Z.to_N n)).
  now destruct (N.to_uint (Z.to_N n)).
Qed.

Lemma of_uint_zeros (k : nat) (u : Decimal.uint) :
  N.of_uint (Nat.iter k Decimal.D0 u) = N.of_uint u.
Proof.
  induction k as [|k IH]; [reflexivity|]. exact IH.
Qed.

Lemma parse_pad (w : nat) (n : Z) :
  0 <= n -> parse_digits (JsDate.pad w n) = Some n.
Proof.
  intros H. unfold parse_digits, JsDate.pad.
  rewrite digits_uint, zeros_uint, NilEmpty.usu, of_uint_zeros.
  rewrite DecimalN.Unsigned.of_to. f_equal. lia.
Qed.

Lemma of_uint_acc_lower (d : Decimal.uint) (acc : positive) :
  Zpos acc * 10 ^ Z.of_nat (Decimal.nb_digits d)
  <= Zpos (Pos.of_uint_acc d acc).
Proof.
  revert acc. induction d; intros acc; cbn [Pos.of_uint_acc Decimal.nb_digits];
    try (rewrite Nat2Z.inj_succ, Z.pow_succ_r by lia;
         match goal with
         | |- _ <= Zpos (Pos.of_uint_acc _ ?a) =>
             specialize (IHd a);
             pose proof (Z.pow_pos_nonneg 10 (Z.of_nat (Decimal.nb_digits d)));
             nia
         end).
  cbn. lia.
Qed.

Lemma nzhead_no_zero (d : Decimal.uint) :
  match Decimal.nzhead d with Decimal.D0 _ => False | _ => True end.
Proof.
  induction d; cbn; trivial.
Qed.

Lemma to_uint_lower (p : positive) :
  10 ^ (Z.of_nat (Decimal.nb_digits (Pos.to_uint p)) - 1) <= Zpos p.
Proof.
  pose proof (DecimalPos.Unsigned.to_of (Pos.to_uint p)) as Hn.
  rewrite DecimalPos.Unsigned.of_to in Hn. cbn [N.to_uint] in Hn.
  pose proof (DecimalPos.Unsigned.of_to p) as Hv.
  pose proof (DecimalPos.Unsigned.to_uint_nonzero p) as Hz.
  pose proof (nzhead_no_zero (Pos.to_uint p)) as Hh.
  unfold Decimal.unorm in Hn.
  destruct (Pos.to_uint p) as [|d|d|d|d|d|d|d|d|d|d] eqn:E;
    cbn [Decimal.nzhead] in *;
    try (cbn [Pos.of_uint Decimal.nb_digits] in *;
         injection Hv as Hv; rewrite <- Hv;
         rewrite Nat2Z.inj_succ;
         replace (Z.succ (Z.of_nat (Decimal.nb_digits d)) - 1)
           with (Z.of_nat (Decimal.nb_digits d)) by lia;
         match goal with
         | |- _ <= Zpos (Pos.of_uint_acc _ ?a) =>
             pose proof (of_uint_acc_lower d a);
             pose proof (Z.pow_pos_nonneg 10 (Z.of_nat (Decimal.nb_digits d)));
             nia
         end).
  - discriminate.
  - destruct (Decimal.nzhead d) eqn:En; try contradiction;
      try (rewrite Hn in Hh; contradiction); try discriminate.
    all: try (injection Hn as Hn; subst; now destruct Hz).
Qed.

Lemma length_digits (w : nat) (n : Z) :
  (1 <= w)%nat -> 0 <= n < 10 ^ Z.of_nat w ->
  (String.length (digits n) <= w)%nat.
Proof.
  intros Hw Hn. rewrite digits_uint, length_uint.
  destruct (Z.to_N n) as [|p] eqn:E; [exact Hw|].
  pose proof (to_uint_lower p) as Hl. cbn [N.to_uint].
  assert (Hp : Zpos p = n) by lia. rewrite Hp in Hl.
  assert (Hlt : 10 ^ (Z.of_nat (Decimal.nb_digits (Pos.to_uint p)) - 1)
                < 10 ^ Z.of_nat w) by lia.
  apply Z.pow_lt_mono_r_iff in Hlt; lia.
Qed.

Lemma length_pad (w : nat) (n : Z) :
  (1 <= w)%nat -> 0 <= n < 10 ^ Z.of_nat w ->
  String.length (JsDate.pad w n) = w.
Proof.
  intros Hw Hn. unfold JsDate.pad.
  pose proof (length_digits w n Hw Hn).
  rewrite string_length_app, length_zeros. lia.
Qed.

Lemma field_pad (w : nat) (n : Z) (rest : string) :
  (1 <= w)%nat -> 0 <= n < 10 ^ Z.of_nat w ->
  field w (JsDate.pad w n ++ rest) = Some (n, rest).
Proof.
  intros Hw Hn. unfold field.
  rewrite <- (length_pad w n Hw Hn) at 1.
  rewrite take_app, parse_pad by lia. reflexivity.
Qed.

Lemma pad_head (w : nat) (n : Z) :
  (1 <= w)%nat -> 0 <= n < 10 ^ Z.of_nat w ->
  exists c tl,
    JsDate.pad w n = String c tl
    /\ Ascii.eqb c "+" = false /\ Ascii.eqb c "-" = false.
Proof.
  intros Hw Hn. pose proof (length_pad w n Hw Hn) as Hl.
  pose proof (parse_pad w n (proj1 Hn)) as Hp.
  destruct (JsDate.pad w n) as [|c tl]; [cbn in Hl; lia|].
  exists c, tl. split; [reflexivity|].
  unfold parse_digits in Hp. cbn [NilEmpty.uint_of_string] in Hp.
  split.
  - destruct (Ascii.eqb_spec c "+") as [-> | _]; [|reflexivity].
    destruct (NilEmpty.uint_of_string tl); discriminate.
  - destruct (Ascii.eqb_spec c "-") as [-> | _]; [|reflexivity].
    destruct (NilEmpty.uint_of_string tl); discriminate.
Qed.

Lemma year_field_string (y : Z) (rest : string) :
  - 999999 <= y <= 999999 ->
  year_field (JsDate.year_string y ++ rest) = Some (y, rest).
Proof.
  intros Hy. unfold JsDate.year_string.
  destruct ((0 <=? y) && (y <=? 9999)) eqn:E.
  - apply andb_true_iff in E as [E1 E2].
    apply Z.leb_le in E1. apply Z.leb_le in E2.
    assert (Hr : 0 <= y < 10 ^ Z.of_nat 4) by (cbn; lia).
    destruct (pad_head 4 y ltac:(lia) Hr)
      as (c & tl & Hs & Hplus & Hminus).
    pose proof (field_pad 4 y rest ltac:(lia) Hr) as Hf.
    rewrite Hs in *. cbn [append year_field]. rewrite Hplus, Hminus.
    exact Hf.
  - assert (Hr : 0 <= Z.abs y < 10 ^ Z.of_nat 6) by (cbn; lia).
    pose proof (field_pad 6 (Z.abs y) rest ltac:(lia) Hr) as Hf.
    destruct (y <? 0) eqn:En.
    + apply Z.ltb_lt in En.
      change (("-" ++ JsDate.pad 6 (Z.abs y)) ++ rest)
        with (String "-" (JsDate.pad 6 (Z.abs y) ++ rest)).
      unfold year_field. change (Ascii.eqb "-" "+") with false.
      change (Ascii.eqb "-" "-") with true. cbv iota.
      rewrite Hf. destruct (Z.eqb_spec (Z.abs y) 0); [lia|].
      f_equal. f_equal. lia.
    + apply Z.ltb_ge in En.
      change (("+" ++ JsDate.pad 6 (Z.abs y)) ++ rest)
        with (String "+" (JsDate.pad 6 (Z.abs y) ++ rest)).
      unfold year_field. change (Ascii.eqb "+" "+") with true. cbv iota.
      rewrite Hf. f_equal. f_equal. lia.
Qed.

Lemma doe_facts (doe : Z) :
  0 <= doe < 146097 ->
  let yoe := (doe - doe / 1460 + doe / 36524 - doe / 146096) / 365 in
  let doy := doe - (365 * yoe + yoe / 4 - yoe / 100) in
  0 <= yoe <= 399 /\ 0 <= doy <= 365
  /\ (doy = 365 ->
      ((yoe + 1) mod 4 = 0 /\ (yoe + 1) mod 100 <> 0)
      \/ (yoe + 1) mod 400 = 0).
Proof.
  intros H. cbv zeta. Z.div_mod_to_equations. lia.
Qed.

Lemma doy_facts (doy : Z) :
  0 <= doy <= 365 ->
  let mp := (5 * doy + 2) / 153 in
  let d := doy - (153 * mp + 2) / 5 + 1 in
  0 <= mp <= 11 /\ 1 <= d
  /\ (mp = 0 \/ mp = 2 \/ mp = 4 \/ mp = 5 \/ mp = 7 \/ mp = 9 \/ mp = 10 ->
      d <= 31)
  /\ (mp = 1 \/ mp = 3 \/ mp = 6 \/ mp = 8 -> d <= 30)
  /\ (mp = 11 -> d <= 28 \/ (d = 29 /\ doy = 365)).
Proof.
  intros H. cbv zeta. Z.div_mod_to_equations. lia.
Qed.

Lemma civil_round_trip (z : Z) (y m d : Z) :
  JsDate.civil_from_days z = (y, m, d) ->
  days_from_civil y m d = z
  /\ 1 <= m <= 12 /\ 1 <= d <= days_in_month y m
  /\ (z + 719468) / 146097 * 400 <= y <= (z + 719468) / 146097 * 400 + 400.
Proof.
  unfold JsDate.civil_from_days.
  set (era := (z + 719468) / 146097).
  set (doe := z + 719468 - era * 146097).
  assert (Hdoe : 0 <= doe < 146097).
  { subst doe era. Z.div_mod_to_equations. lia. }
  destruct (doe_facts doe Hdoe) as (Hyoe & Hdoy & Hleap).
  cbv zeta in Hyoe, Hdoy, Hleap.
  set (yoe := (doe - doe / 1460 + doe / 36524 - doe / 146096) / 365) in *.
  set (doy := doe - (365 * yoe + yoe / 4 - yoe / 100)) in *.
  destruct (doy_facts doy Hdoy) as (Hmp & Hd1 & H31 & H30 & Hfeb).
  cbv zeta in Hmp, Hd1, H31, H30, Hfeb.
  set (mp := (5 * doy + 2) / 153) in *.
  set (dd := doy - (153 * mp + 2) / 5 + 1) in *.
  cbv zeta. fold era. fold doe. fold yoe. fold doy. fold mp. fold dd.
  intros [= <- <- <-].
  unfold days_from_civil, days_in_month, is_leap.
  destruct (Z.ltb_spec mp 10) as [Hlt | Hge].
  - (* March to December *)
    replace (mp + 3 <=? 2) with false by (symmetry; apply Z.leb_gt; lia).
    replace (2 <? mp + 3) with true by (symmetry; apply Z.ltb_lt; lia).
    replace (mp + 3 - 3) with mp by lia.
    replace ((yoe + era * 400) / 400) with era
      by (Z.div_mod_to_equations; lia).
    replace (mp + 3 =? 2) with false by (symmetry; apply Z.eqb_neq; lia).
    replace (yoe + era * 400 - era * 400) with yoe by lia.
    split; [subst dd doy doe; lia|]. split; [lia|]. split; [|lia].
    split; [lia|].
    destruct (Z.eqb_spec (mp + 3) 4); [cbn; lia|].
    destruct (Z.eqb_spec (mp + 3) 6); [cbn; lia|].
    destruct (Z.eqb_spec (mp + 3) 9); [cbn; lia|].
    destruct (Z.eqb_spec (mp + 3) 11); [cbn; lia|].
    cbn. lia.
  - (* January and February *)
    replace (mp - 9 <=? 2) with true by (symmetry; apply Z.leb_le; lia).
    replace (2 <? mp - 9) with false by (symmetry; apply Z.ltb_ge; lia).
    replace (mp - 9 + 9) with mp by lia.
    replace (yoe + era * 400 + 1 - 1) with (yoe + era * 400) by lia.
    replace ((yoe + era * 400) / 400) with era
      by (Z.div_mod_to_equations; lia).
    replace (yoe + era * 400 - era * 400) with yoe by lia.
    split; [subst dd doy doe; lia|]. split; [lia|]. split; [|lia].
    split; [lia|].
    replace (mp - 9 =? 4) with false by (symmetry; apply Z.eqb_neq; lia).
    replace (mp - 9 =? 6) with false by (symmetry; apply Z.eqb_neq; lia).
    replace (mp - 9 =? 9) with false by (symmetry; apply Z.eqb_neq; lia).
    replace (mp - 9 =? 11) with false by (symmetry; apply Z.eqb_neq; lia).
    destruct (Z.eqb_spec (mp - 9) 2) as [Hm | Hm]; [|cbn; lia].
    assert (Hmp11 : mp = 11) by lia.
    destruct (Hfeb Hmp11) as [H28 | [H29 H365]].
    + destruct (_ || _); lia.
    + specialize (Hleap H365).
      assert (Hl : ((yoe + era * 400 + 1) mod 4 =? 0)
                   && negb ((yoe + era * 400 + 1) mod 100 =? 0)
                   || ((yoe + era * 400 + 1) mod 400 =? 0) = true).
      { apply orb_true_iff. destruct Hleap as [[H4 H100] | H400].
        - left. apply andb_true_iff. split.
          + apply Z.eqb_eq. Z.div_mod_to_equations. lia.
          + apply negb_true_iff, Z.eqb_neq. Z.div_mod_to_equations. lia.
        - right. apply Z.eqb_eq. Z.div_mod_to_equations. lia. }
      rewrite Hl. lia.
Qed.

(** Where the last year of an era begins, and where the months of January
    and February stand in it. *)
Lemma last_year_of_era (doe : Z) :
  0 <= doe < 146097 ->
  let yoe := (doe - doe / 1460 + doe / 36524 - doe / 146096) / 365 in
  let doy := doe - (365 * yoe + yoe / 4 - yoe / 100) in
  let mp := (5 * doy + 2) / 153 in
  (146037 <= doe -> yoe = 399 /\ 10 <= mp)
  /\ (doe <= 146036 -> yoe = 399 -> mp < 10).
Proof.
  intros H. cbv zeta. Z.div_mod_to_equations. lia.
Qed.

(** The days from 1 January of the year 0 to 31 December 9999 are the days
    of the years 0 to 9999. *)
Lemma four_digit_year (z y m d : Z) :
  JsDate.civil_from_days z = (y, m, d) ->
  - 719528 <= z <= 2932896 -> 0 <= y <= 9999.
Proof.
  unfold JsDate.civil_from_days.
  set (era := (z + 719468) / 146097).
  set (doe := z + 719468 - era * 146097).
  intros E Hz.
  assert (Hdoe : 0 <= doe < 146097 /\ -1 <= era <= 24
                 /\ (era = -1 -> 146037 <= doe)
                 /\ (era = 24 -> doe <= 146036)).
  { subst doe era. Z.div_mod_to_equations. lia. }
  destruct Hdoe as (Hdoe & Hera & Hlo & Hhi).
  destruct (doe_facts doe Hdoe) as (Hyoe & Hdoy & _).
  destruct (last_year_of_era doe Hdoe) as (Hfirst & Hlast).
  cbv zeta in Hyoe, Hdoy, Hfirst, Hlast.
  set (yoe := (doe - doe / 1460 + doe / 36524 - doe / 146096) / 365) in *.
  set (doy := doe - (365 * yoe + yoe / 4 - yoe / 100)) in *.
  destruct (doy_facts doy Hdoy) as (Hmp & _).
  cbv zeta in Hmp.
  set (mp := (5 * doy + 2) / 153) in *.
  cbv zeta in E. fold era in E. fold doe in E. fold yoe in E.
  fold doy in E. fold mp in E.
  injection E as <- _ _.
  destruct (Z.ltb_spec mp 10) as [Hlt | Hge].
  - replace (mp + 3 <=? 2) with false by (symmetry; apply Z.leb_gt; lia).
    lia.
  - replace (mp - 9 <=? 2) with true by (symmetry; apply Z.leb_le; lia).
    lia.
Qed.

Lemma time_of_day (t : Z) :
  (t / JsDate.msPerDay) * JsDate.msPerDay
  + JsDate.hours t * 3600000 + JsDate.minutes t * 60000
  + JsDate.seconds t * 1000 + JsDate.millis t = t
  /\ 0 <= JsDate.hours t <= 23 /\ 0 <= JsDate.minutes t <= 59
  /\ 0 <= JsDate.seconds t <= 59 /\ 0 <= JsDate.millis t <= 999.
Proof.
  unfold JsDate.hours, JsDate.minutes, JsDate.seconds, JsDate.millis,
    JsDate.msPerDay.
  Z.div_mod_to_equations. lia.
Qed.

Lemma expect_app (c : ascii) (rest : string) :
  expect c (String c EmptyString ++ rest) = Some rest.
Proof.
  cbn. now rewrite Ascii.eqb_refl.
Qed.

(** A date in range, printed by [toISOString], reads back as itself. *)
Lemma parse_toISOString (t : Z) :
  in_range t -> parse (JsDate.toISOString t) = Some (Some t).
Proof.
  intros Ht. unfold in_range in Ht. unfold JsDate.toISOString.
  destruct (JsDate.civil_from_days (t / JsDate.msPerDay)) as [[y m] d] eqn:E.
  destruct (civil_round_trip _ _ _ _ E) as (Hdays & Hm & Hd & Hy).
  destruct (time_of_day t) as (Hsum & Hh & Hmi & Hs & Hms).
  assert (Hyear : - 999999 <= y <= 999999).
  { unfold JsDate.msPerDay in Hy. Z.div_mod_to_equations. lia. }
  assert (Hd31 : d <= 31).
  { unfold days_in_month in Hd.
    destruct (m =? 2); [destruct (is_leap y); lia|].
    destruct (_ || _); lia. }
  unfold parse.
  rewrite year_field_string by exact Hyear. cbn [bind].
  rewrite expect_app. cbn [bind].
  rewrite field_pad by (cbn; lia). cbn [bind].
  rewrite expect_app. cbn [bind].
  rewrite field_pad by (cbn; lia). cbn [bind].
  rewrite expect_app. cbn [bind].
  rewrite field_pad by (cbn; lia). cbn [bind].
  rewrite expect_app. cbn [bind].
  rewrite field_pad by (cbn; lia). cbn [bind].
  rewrite expect_app. cbn [bind].
  rewrite field_pad by (cbn; lia). cbn [bind].
  rewrite expect_app. cbn [bind].
  rewrite field_pad by (cbn; lia). cbn [bind].
  change (expect "Z" "Z") with (Some EmptyString). cbn [bind].
  replace (1 <=? m) with true by (symmetry; apply Z.leb_le; lia).
  replace (m <=? 12) with true by (symmetry; apply Z.leb_le; lia).
  replace (1 <=? d) with true by (symmetry; apply Z.leb_le; lia).
  replace (d <=? days_in_month y m) with true
    by (symmetry; apply Z.leb_le; lia).
  replace (JsDate.hours t <=? 23) with true
    by (symmetry; apply Z.leb_le; lia).
  replace (JsDate.minutes t <=? 59) with true
    by (symmetry; apply Z.leb_le; lia).
  replace (JsDate.seconds t <=? 59) with true
    by (symmetry; apply Z.leb_le; lia).
  cbn [andb]. rewrite Hdays, Hsum. unfold JsDate.TimeClip.
  replace (Z.abs t <=? 8640000000000000) with true
    by (symmetry; apply Z.leb_le; lia).
  reflexivity.
Qed.

End IsoFacts.

(** X21: a date (a time value within 8.64e15 milliseconds of the epoch)
    that [toISOString] prints reads back, through [new Date], as the same
    date, whatever the engine does with other strings. *)
Theorem iso_string_reads_back (other : string -> JsDate.Date)
  (t : Z) :
  in_range t -> Date_of_string other (JsDate.toISOString t) = Some t.
Proof.
  intros Ht. unfold Date_of_string.
  now rewrite (IsoFacts.parse_toISOString t Ht).
Qed.

Lemma iso_string_reads_back_witness :
  Date_of_string Scenario.no_other (JsDate.toISOString Scenario.some_time)
  = Some Scenario.some_time.
Proof.
  apply iso_string_reads_back.
  unfold in_range, Scenario.some_time. lia.
Defined.

(** X22: with a clock that reads dates, the time that the card of generated
    alerts prints for the [i]-th new alert of a run is the second reading
    the run took for it, formatted like every other time. *)
Theorem generated_time_is_shown (host : Host)
  (other : string -> JsDate.Date)
  (events : list EarthquakeEvent.t) (alertSettings : AlertSettings.t)
  (processed : list string) (c : JsDate.Clock) :
  (forall n, in_range (c n)) ->
  forall i a,
    nth_error (fst (evaluate host events alertSettings processed c)) i
    = Some a ->
    generated_at host other a
    = formatDateTime host (Some (c (2 * i + 1)%nat)).
Proof.
  intros Hc i a Hi.
  destruct (evaluate_stamped host events alertSettings processed c i a Hi)
    as [_ Hts].
  unfold generated_at, Date_of_string. rewrite Hts.
  now rewrite (IsoFacts.parse_toISOString _ (Hc _)).
Qed.

Lemma generated_time_is_shown_witness :
  Forall (fun a => generated_at utc_host Scenario.no_other a
                   = "03/11/2026 04:35:00")
    (fst (evaluate utc_host [Sample.chile] Sample.settings_7 []
            Scenario.clock)).
Proof.
  assert (Hc : forall n, in_range (Scenario.clock n)).
  { intros n. unfold in_range, Scenario.clock, Sample.still. lia. }
  apply Forall_forall. intros a Ha.
  apply In_nth_error in Ha as [i Hi].
  rewrite (generated_time_is_shown utc_host Scenario.no_other
             [Sample.chile] Sample.settings_7 [] Scenario.clock Hc i a Hi).
  reflexivity.
Defined.

Lemma new_alerts_are_the_due_events_witness :
  map GeneratedAlert.event
    (fst (evaluate utc_host [Sample.chile; Sample.pass_creek]
            Sample.settings_7 ["e1"]%list Scenario.clock))
  = [Sample.pass_creek]%list.
Proof.
  rewrite (new_alerts_are_the_due_events utc_host
             [Sample.chile; Sample.pass_creek] Sample.settings_7
             ["e1"]%list Scenario.clock).
  - reflexivity.
  - repeat constructor; cbn; intuition discriminate.
Defined.

Lemma log_has_one_alert_per_id_witness :
  log_inv (run_effects utc_host Sample.two_calls Sample.empty_store).
Proof.
  apply log_has_one_alert_per_id.
  split; [constructor | intros x []].
Defined.

Lemma recipients_stay_ok_witness :
  recipients_ok (fold_left recipient_step Scenario.clicks Scenario.card).
Proof.
  apply recipients_stay_ok. split.
  - repeat constructor. intros [].
  - cbn. intuition discriminate.
Defined.

Lemma marker_colour_tells_level_witness :
  exists e,
    In e (normalize [Sample.tonga; Scenario.quiet])
    /\ EarthquakeEvent.alertLevel e = info
    /\ marker_color (EarthquakeEvent.magnitude e) = "#f5a623".
Proof.
  destruct (mapUsgsFeatureToEarthquakeEvent Scenario.quiet) as [e|] eqn:E;
    [|discriminate].
  assert (Hin : In e (normalize [Sample.tonga; Scenario.quiet])).
  { apply In_normalize. exists Scenario.quiet. split; [|exact E].
    right. now left. }
  assert (Hflag : EarthquakeEvent.isTsunamiWarning e = false).
  { injection E as <-. reflexivity. }
  exists e. split; [exact Hin|].
  destruct (marker_colour_tells_level _ e Hin Hflag) as (_ & Hinfo & _).
  assert (Hc : marker_color (EarthquakeEvent.magnitude e) = "#f5a623").
  { injection E as <-. reflexivity. }
  split; [apply Hinfo, Hc | exact Hc].
Defined.

(** ** The keys of the alert list *)

Lemma length_toISOString (t : Z) :
  plain_years t -> String.length (JsDate.toISOString t) = 24%nat.
Proof.
  intros Ht. unfold plain_years in Ht. unfold JsDate.toISOString.
  destruct (JsDate.civil_from_days (t / JsDate.msPerDay)) as [[y m] d] eqn:E.
  destruct (IsoFacts.civil_round_trip _ _ _ _ E) as (_ & Hm & Hd & _).
  destruct (IsoFacts.time_of_day t) as (_ & Hh & Hmi & Hs & Hms).
  assert (Hyear : 0 <= y <= 9999).
  { apply (IsoFacts.four_digit_year _ _ _ _ E).
    unfold JsDate.msPerDay. Z.div_mod_to_equations. lia. }
  assert (Hd31 : d <= 31).
  { unfold IsoFormat.days_in_month in Hd.
    destruct (m =? 2); [destruct (IsoFormat.is_leap y); lia|].
    destruct (_ || _); lia. }
  unfold JsDate.year_string.
  replace ((0 <=? y) && (y <=? 9999)) with true
    by (symmetry; apply andb_true_iff; split; apply Z.leb_le; lia).
  rewrite !IsoFacts.string_length_app.
  rewrite (IsoFacts.length_pad 4 y), !(IsoFacts.length_pad 2),
    (IsoFacts.length_pad 3) by (cbn; lia).
  reflexivity.
Qed.

Lemma append_same_length (a b u v : string) :
  a ++ u = b ++ v -> String.length u = String.length v -> a = b.
Proof.
  revert b. induction a as [|x a IH]; intros [|y b] H Hl; cbn in H.
  - reflexivity.
  - exfalso. apply (f_equal String.length) in H. cbn in H.
    rewrite IsoFacts.string_length_app in H. lia.
  - exfalso. apply (f_equal String.length) in H. cbn in H.
    rewrite IsoFacts.string_length_app in H. lia.
  - injection H as -> H. f_equal. now apply IH.
Qed.

Lemma keyed_same_id (a b : GeneratedAlert.t) :
  keyed a -> keyed b ->
  GeneratedAlert.id a = GeneratedAlert.id b ->
  EarthquakeEvent.id (GeneratedAlert.event a)
  = EarthquakeEvent.id (GeneratedAlert.event b).
Proof.
  intros (sa & Ha & La) (sb & Hb & Lb) Hid. rewrite Ha, Hb in Hid.
  apply (append_same_length _ _ _ _ Hid). cbn. congruence.
Qed.

Lemma NoDup_map_finer {A B C : Type} (f : A -> B) (g : A -> C)
  (l : list A) :
  (forall a b, In a l -> In b l -> g a = g b -> f a = f b) ->
  NoDup (map f l) -> NoDup (map g l).
Proof.
  induction l as [|x l IH]; cbn; intros H Hnd; [constructor|].
  inversion Hnd as [|? ? Hnotin Hnd']; subst. constructor.
  - intros Hin. apply in_map_iff in Hin as (y & Hy & Hin).
    apply Hnotin. rewrite <- (H y x (or_intror Hin) (or_introl eq_refl) Hy).
    now apply in_map.
  - apply IH; [|exact Hnd']. intros a b Ha Hb. apply H; now right.
Qed.

Lemma alertEffect_keys_inv (host : Host) (events : list EarthquakeEvent.t)
  (alertSettings : AlertSettings.t) (c : JsDate.Clock) (st : Store) :
  (forall n, plain_years (c n)) ->
  log_keys_inv st ->
  log_keys_inv (alertEffect host events alertSettings c st).
Proof.
  intros Hc [Hinv Hk]. split; [now apply alertEffect_log_inv|].
  rewrite alertEffect_evaluate.
  pose proof (evaluate_stamped host events alertSettings
                (processedEvents st) c) as Hst.
  destruct (evaluate host events alertSettings (processedEvents st) c)
    as [[|a alerts] p]; cbn [fst generatedAlerts] in *; [exact Hk|].
  assert (Hall : Forall keyed ((a :: alerts) ++ generatedAlerts st)).
  { apply Forall_app. split; [|exact Hk].
    apply Forall_forall. intros x Hx.
    apply In_nth_error in Hx as [i Hi].
    destruct (Hst i x Hi) as [Hid _].
    eexists. split; [exact Hid|]. apply length_toISOString, Hc. }
  rewrite Forall_forall in *. intros x Hx. apply Hall.
  exact (In_firstn _ _ _ Hx).
Qed.

(** X23: as long as the clock reads dates whose year has four digits, the
    alerts of the log have pairwise different ids (the keys of the list that
    the card renders), over any sequence of runs from a log that is in order
    (the empty one, for one). *)
Theorem log_ids_are_unique (host : Host) (calls : list Call) (st : Store) :
  Forall plain_clock calls ->
  log_keys_inv st ->
  NoDup (map GeneratedAlert.id (generatedAlerts (run_effects host calls st))).
Proof.
  intros Hcalls Hst.
  assert (Hinv : log_keys_inv (run_effects host calls st)).
  { revert st Hst.
    induction Hcalls as [|[[events alertSettings] c] calls Hc _ IH];
      intros st Hst; cbn [run_effects]; [exact Hst|].
    apply IH. apply alertEffect_keys_inv; [exact Hc | exact Hst]. }
  destruct Hinv as [[Hnd _] Hk]. rewrite Forall_forall in Hk.
  apply (NoDup_map_finer
           (fun a => EarthquakeEvent.id (GeneratedAlert.event a))
           GeneratedAlert.id); [|exact Hnd].
  intros a b Ha Hb. apply keyed_same_id; now apply Hk.
Qed.

Lemma log_ids_are_unique_witness :
  NoDup (map GeneratedAlert.id
           (generatedAlerts
              (run_effects utc_host Sample.two_calls Sample.empty_store))).
Proof.
  apply log_ids_are_unique.
  - unfold Sample.two_calls.
    constructor; [|constructor; [|constructor]];
      intros n; unfold plain_years, Sample.still; cbn [snd]; lia.
  - split; [split; [constructor | intros x []] | constructor].
Defined.

(** ** The body of an alert, continued *)

(** X24: for an alert whose event has no dollar sign in its place, its link
    and its printed time, the body is the template of the settings with the
    first occurrence of each placeholder replaced by its text. *)
Theorem body_of_plain_event (host : Host) (events : list EarthquakeEvent.t)
  (alertSettings : AlertSettings.t) (processed : list string)
  (c : JsDate.Clock) (a : GeneratedAlert.t) :
  In a (fst (evaluate host events alertSettings processed c)) ->
  JsString.has_dollar (EarthquakeEvent.location (GeneratedAlert.event a))
  = false ->
  JsString.has_dollar (EarthquakeEvent.link (GeneratedAlert.event a))
  = false ->
  JsString.has_dollar
    (formatDateTime host (EarthquakeEvent.updated (GeneratedAlert.event a)))
  = false ->
  GeneratedAlert.body a
  = render_spec host (AlertSettings.emailTemplate alertSettings)
      (GeneratedAlert.event a).
Proof.
  intros Ha Hloc Hlink Htime.
  destruct (evaluate_spec host events alertSettings processed c)
    as (alerts & Hg & _ & _ & [[-> E] | (_ & _ & E)]);
    rewrite E in Ha; cbn [fst] in Ha; [destruct Ha|].
  rewrite Forall_forall in Hg. destruct (Hg a Ha) as (_ & _ & ->).
  now apply render_plain.
Qed.

Lemma body_of_plain_event_witness :
  Forall (fun a => GeneratedAlert.body a = "M7.2 near Chile")
    (fst (evaluate utc_host [Sample.chile] Sample.settings_7 []
            Scenario.clock)).
Proof.
  apply Forall_forall. intros a Ha.
  assert (He : GeneratedAlert.event a = Sample.chile).
  { revert a Ha. apply Forall_forall. repeat constructor. }
  rewrite (body_of_plain_event utc_host [Sample.chile] Sample.settings_7 []
             Scenario.clock a Ha); rewrite He; reflexivity.
Defined.

Lemma prefix_app (p b : string) : prefix p (p ++ b) = true.
Proof.
  induction p as [|x p IH]; cbn; [now destruct b|].
  destruct (ascii_dec x x); [exact IH | congruence].
Qed.

Lemma index_after (x : ascii) (q a b : string) :
  occurs x a = false ->
  index 0 (String x q) (a ++ String x q ++ b) = Some (String.length a).
Proof.
  intros H. induction a as [|y a IH].
  - change (EmptyString ++ String x q ++ b) with (String x (q ++ b)).
    change (index 0 (String x q) (String x (q ++ b)))
      with (if prefix (String x q) (String x (q ++ b)) then Some 0%nat
            else match index 0 (String x q) (q ++ b) with
                 | Some n => Some (S n)
                 | None => None
                 end).
    change (String x (q ++ b)) with (String x q ++ b).
    now rewrite prefix_app.
  - cbn in H. apply orb_false_iff in H as [Hy H].
    change ((String y a) ++ String x q ++ b)
      with (String y (a ++ String x q ++ b)).
    change (index 0 (String x q) (String y (a ++ String x q ++ b)))
      with (if prefix (String x q) (String y (a ++ String x q ++ b))
            then Some 0%nat
            else match index 0 (String x q) (a ++ String x q ++ b) with
                 | Some n => Some (S n)
                 | None => None
                 end).
    rewrite (IH H).
    replace (prefix (String x q) (String y (a ++ String x q ++ b)))
      with false; [reflexivity|].
    cbn. destruct (ascii_dec x y) as [-> | _]; [|reflexivity].
    now rewrite Ascii.eqb_refl in Hy.
Qed.

Lemma upto_app (a b : string) : JsString.upto (String.length a) (a ++ b) = a.
Proof.
  unfold JsString.upto. induction a as [|x a IH]; cbn.
  - now destruct b.
  - now rewrite IH.
Qed.

Lemma substring_all (s : string) : substring 0 (String.length s) s = s.
Proof.
  induction s as [|x s IH]; cbn; [reflexivity | now rewrite IH].
Qed.

Lemma from_app (a b : string) (k : nat) :
  JsString.from (String.length a + k) (a ++ b) = JsString.from k b.
Proof.
  unfold JsString.from. rewrite IsoFacts.string_length_app.
  replace (String.length a + String.length b - (String.length a + k))%nat
    with (String.length b - k)%nat by lia.
  induction a as [|x a IH]; cbn; [reflexivity | exact IH].
Qed.

Lemma from_length (p b : string) :
  JsString.from (String.length p) (p ++ b) = b.
Proof.
  rewrite <- (Nat.add_0_r (String.length p)), from_app.
  unfold JsString.from. rewrite Nat.sub_0_r. apply substring_all.
Qed.

(** X25: only the first occurrence of a placeholder is replaced: in a
    template that has none of the other four placeholders and no brace
    before its first [{link}], the body is the template with the link in
    place of that [{link}], and what follows, later [{link}]s included, is
    kept as it is (the link having no dollar sign). *)
Theorem only_first_link_replaced (host : Host) (before after : string)
  (event : EarthquakeEvent.t) :
  let template := before ++ "{link}" ++ after in
  occurs "{" before = false ->
  index 0 "{magnitude}" template = None ->
  index 0 "{location}" template = None ->
  index 0 "{depth}" template = None ->
  index 0 "{time}" template = None ->
  JsString.has_dollar (EarthquakeEvent.link event) = false ->
  render host template event
  = before ++ EarthquakeEvent.link event ++ after.
Proof.
  intros template Hb Hmag Hloc Hdepth Htime Hlink. unfold render.
  unfold JsString.replace at 5. rewrite Hmag.
  unfold JsString.replace at 4. rewrite Hloc.
  unfold JsString.replace at 3. rewrite Hdepth.
  unfold JsString.replace at 2. rewrite Htime.
  unfold JsString.replace. subst template.
  rewrite (index_after "{" "link}" before after Hb).
  rewrite GetSubstitution_plain by exact Hlink.
  rewrite upto_app, from_app. f_equal. f_equal.
  exact (from_length "{link}" after).
Qed.

Lemma only_first_link_replaced_witness :
  render utc_host ("See " ++ "{link}" ++ " or {link}") Sample.chile
  = "See https://earthquake.usgs.gov/earthquakes/eventpage/e1 or {link}".
Proof.
  rewrite (only_first_link_replaced utc_host "See " " or {link}"
             Sample.chile); reflexivity.
Defined.
